(** * nextjs-crons: the CronRunner engine

    A shallow embedding of the class [CronRunner] (module [./runner], in
    the second part of src/cli.ts) with the types of [./types], followed
    by the properties of its public operations.

    The runner is a JavaScript object with three mutable fields ([tasks],
    [stats], [config]) and read-only [options]; it talks to a file system,
    a clock, a console, an HTTP transport and the node-cron scheduler.
    The mutable fields are the record [CronRunner]; everything outside the
    object is the record [World]; every method is a function on both.
    Methods that can throw return an [Outcome] next to the final state, so
    that the state a failed call leaves behind can be inspected.

    The services of the JavaScript platform that the class calls and that
    are not part of this repository ([path.resolve], [JSON.parse],
    [RegExp], [URL], node-cron's [validate]) are the fields of the class
    [Platform].  General theorems hold for every platform; the module
    [Reference] gives one executable platform on which the examples run. *)

From Stdlib Require Import ZArith Ascii String List.
From stdpp Require Import base strings list gmap pretty.

#[local] Set Warnings "-register-all".

Local Open Scope string_scope.
Local Open Scope Z_scope.

(** ** JavaScript values seen by the runner *)

(** What a [catch] clause can receive.  [error instanceof Error] holds for
    [ThrownError] only; [ThrownValue] carries [String(error)]. *)
Inductive JsThrown : Type :=
  | ThrownError (name message : string) (stack : option string)
  | ThrownValue (repr : string).

(** The result of [JSON.parse] on a well-formed text.  [JNum] keeps an
    integer: the runner never computes with a parsed number, it only
    tests one for being falsy, so a number that is not integral can be
    read as any integer other than zero. *)
Inductive JsonValue : Type :=
  | JNull
  | JBool (b : bool)
  | JNum (n : Z)
  | JStr (s : string)
  | JArr (items : list JsonValue)
  | JObj (fields : list (string * JsonValue)).

(** [v[key]] for an object literal: the last binding of a repeated key
    wins, as [JSON.parse] keeps it. *)
Fixpoint json_field (key : string) (fields : list (string * JsonValue))
  : option JsonValue :=
  match fields with
  | [] => None
  | (k, v) :: rest =>
      match json_field key rest with
      | Some v' => Some v'
      | None => if String.eqb k key then Some v else None
      end
  end.

(** [!!v] for a parsed value; [None] stands for [undefined]. *)
Definition js_truthy (v : option JsonValue) : bool :=
  match v with
  | None => false
  | Some JNull => false
  | Some (JBool b) => b
  | Some (JNum n) => negb (n =? 0)
  | Some (JStr s) => negb (String.eqb s EmptyString)
  | Some (JArr _) => true
  | Some (JObj _) => true
  end.

Definition Array_isArray (v : option JsonValue) : bool :=
  match v with
  | Some (JArr _) => true
  | _ => false
  end.

(** [!!s] for a string-or-undefined option. *)
Definition str_truthy (s : option string) : bool :=
  match s with
  | Some s => negb (String.eqb s EmptyString)
  | None => false
  end.

(** [a || b] on strings-or-undefined. *)
Definition str_or (a b : option string) : option string :=
  if str_truthy a then a else b.

(** [s.replace(/\*/g, ".*")] *)
Fixpoint replace_stars (s : string) : string :=
  match s with
  | EmptyString => EmptyString
  | String c rest =>
      if Ascii.eqb c "*"%char then String "."%char (String "*"%char (replace_stars rest))
      else String c (replace_stars rest)
  end.

(** [parseInt(s, 10)]: leading white space, an optional sign, then the
    longest run of decimal digits; [None] is [NaN]. *)
Definition is_js_space (c : ascii) : bool :=
  let n := nat_of_ascii c in
  ((9 <=? n) && (n <=? 13))%nat || (n =? 32)%nat.

Definition digit_of (c : ascii) : option Z :=
  let n := nat_of_ascii c in
  if ((48 <=? n) && (n <=? 57))%nat then Some (Z.of_nat n - 48) else None.

Fixpoint skip_spaces (s : string) : string :=
  match s with
  | String c rest => if is_js_space c then skip_spaces rest else s
  | EmptyString => s
  end.

Fixpoint digits_prefix (acc : option Z) (s : string) : option Z :=
  match s with
  | String c rest =>
      match digit_of c with
      | Some d => digits_prefix (Some (10 * default 0 acc + d)) rest
      | None => acc
      end
  | EmptyString => acc
  end.

Definition parseInt10 (s : string) : option Z :=
  match skip_spaces s with
  | String "-" rest => Z.opp <$> digits_prefix None rest
  | String "+" rest => digits_prefix None rest
  | t => digits_prefix None t
  end.

(** [`${n}`] for an integral number. *)
Definition num_to_string (n : Z) : string := pretty n.

(** [s.substring(0, n)]; [s.length] is [String.length s], a string being
    the sequence of its characters. *)
Fixpoint substring0 (n : nat) (s : string) : string :=
  match n, s with
  | S n', String c rest => String c (substring0 n' rest)
  | _, _ => EmptyString
  end.

(** ** Platform services *)

Class Platform : Type := {
  (** [path.resolve(p)], relative to the working directory of the process *)
  path_resolve : string -> string;
  (** [JSON.parse(text)]; [inr msg] is a thrown [SyntaxError(msg)] *)
  JSON_parse : string -> JsonValue + string;
  (** [new RegExp(source)]; [inr msg] is a thrown [SyntaxError(msg)] *)
  RegExp : Type;
  RegExp_new : string -> RegExp + string;
  (** [regex.test(s)] *)
  RegExp_test : RegExp -> string -> bool;
  (** [new URL(s)] does not throw *)
  URL_parses : string -> bool;
  (** node-cron's [validate(expression)] *)
  cron_validate : string -> bool;
}.

(** ** Types of the package (src/types.ts) *)

Record CronJob : Type := { path : string; schedule : string }.

Record VercelCronConfig : Type := { crons : list CronJob }.

Record CronExecutionResult : Type := {
  res_path : string;
  res_schedule : string;
  success : bool;
  statusCode : option Z;
  error : option string;
  timestamp : Z;
  duration : Z;
}.

Record CronRunnerStats : Type := {
  totalJobs : Z;
  successfulExecutions : Z;
  failedExecutions : Z;
  lastExecution : option Z;
}.

(** ** The HTTP transport *)

Record Request : Type := {
  req_url : string;
  req_method : string;
  req_headers : list (string * string);
}.

(** The parts of a fetch [Response] that [executeCron] reads.  A mocked
    response may have no [headers] object at all ([None]); [body_text] is
    what [response.clone().text()] resolves to, or what it throws. *)
Record Response : Type := {
  ok : bool;
  status : Z;
  headers : option (list (string * string));
  body_text : string + JsThrown;
}.

Record FetchReply : Type := {
  reply_result : Response + JsThrown;
  reply_elapsed : Z;
}.

(** A transport answers a request knowing the requests sent before it. *)
Definition FetchFn : Type := list Request -> Request -> FetchReply.

Record CronRunnerOptions : Type := {
  opt_baseUrl : string;
  opt_cronSecret : option string;
  opt_configPath : option string;
  opt_verbose : option Z;
  opt_filter : option string;
  opt_fetch : option FetchFn;
}.

(** [this.options] after the constructor filled in the defaults. *)
Record ResolvedOptions : Type := {
  baseUrl : string;
  cronSecret : string;
  configPath : string;
  verbose : Z;
  filter : option string;
  fetch : option FetchFn;
}.

(** ** The world outside the runner *)

(** One line written by [console.log] or [console.error]; the printed
    prefix is the ISO form of [log_time]. *)
Record LogLine : Type := {
  log_time : Z;
  log_isError : bool;
  log_message : string;
}.

(** A task made by [cron.schedule(expression, callback)].  The runner's
    callback is always [() => this.executeCron(job)], so the task keeps
    the job; a task is created running. *)
Record ScheduledTask : Type := {
  task_expression : string;
  task_job : CronJob;
  task_running : bool;
}.

(** [files] maps the absolute path of every readable file to its text;
    directories and read errors are not modelled.  [requests] is the
    list of the requests sent so far, oldest first; [scheduler] holds
    the tasks of node-cron, a handle being a position in it. *)
Record World : Type := {
  files : gmap string string;
  env_CRON_SECRET : option string;
  clock : Z;
  console : list LogLine;
  global_fetch : FetchFn;
  requests : list Request;
  scheduler : list ScheduledTask;
}.

Definition set_clock (t : Z) (w : World) : World :=
  {| files := files w; env_CRON_SECRET := env_CRON_SECRET w; clock := t;
     console := console w; global_fetch := global_fetch w;
     requests := requests w; scheduler := scheduler w |}.

Definition set_console (c : list LogLine) (w : World) : World :=
  {| files := files w; env_CRON_SECRET := env_CRON_SECRET w; clock := clock w;
     console := c; global_fetch := global_fetch w;
     requests := requests w; scheduler := scheduler w |}.

Definition set_requests (q : list Request) (w : World) : World :=
  {| files := files w; env_CRON_SECRET := env_CRON_SECRET w; clock := clock w;
     console := console w; global_fetch := global_fetch w;
     requests := q; scheduler := scheduler w |}.

Definition set_scheduler (s : list ScheduledTask) (w : World) : World :=
  {| files := files w; env_CRON_SECRET := env_CRON_SECRET w; clock := clock w;
     console := console w; global_fetch := global_fetch w;
     requests := requests w; scheduler := s |}.

Definition set_files (f : gmap string string) (w : World) : World :=
  {| files := f; env_CRON_SECRET := env_CRON_SECRET w; clock := clock w;
     console := console w; global_fetch := global_fetch w;
     requests := requests w; scheduler := scheduler w |}.

(** [cron.schedule]: the handle of the new task is its index. *)
Definition cron_schedule (expression : string) (job : CronJob) (w : World)
  : nat * World :=
  (length (scheduler w),
   set_scheduler
     (scheduler w ++
      [{| task_expression := expression; task_job := job; task_running := true |}])
     w).

Definition stopped (t : ScheduledTask) : ScheduledTask :=
  {| task_expression := task_expression t; task_job := task_job t;
     task_running := false |}.

(** [task.stop()] *)
Definition task_stop (task : nat) (w : World) : World :=
  set_scheduler (alter stopped task (scheduler w)) w.

Definition is_running (w : World) (task : nat) : bool :=
  match scheduler w !! task with
  | Some t => task_running t
  | None => false
  end.

(** ** The runner object *)

(** [Map.prototype.set] on a map kept in insertion order. *)
Fixpoint Map_set (key : string) (task : nat) (m : list (string * nat))
  : list (string * nat) :=
  match m with
  | [] => [(key, task)]
  | (k, t) :: rest =>
      if String.eqb k key then (k, task) :: rest
      else (k, t) :: Map_set key task rest
  end.

Record CronRunner : Type := {
  options : ResolvedOptions;
  tasks : list (string * nat);
  stats : CronRunnerStats;
  config : option VercelCronConfig;
}.

Definition set_tasks (t : list (string * nat)) (r : CronRunner) : CronRunner :=
  {| options := options r; tasks := t; stats := stats r; config := config r |}.

Definition set_stats (s : CronRunnerStats) (r : CronRunner) : CronRunner :=
  {| options := options r; tasks := tasks r; stats := s; config := config r |}.

Definition set_config (c : option VercelCronConfig) (r : CronRunner) : CronRunner :=
  {| options := options r; tasks := tasks r; stats := stats r; config := c |}.

(** The fields as their initialisers in the class body set them. *)
Definition initial_runner (o : ResolvedOptions) : CronRunner :=
  {| options := o;
     tasks := [];
     stats := {| totalJobs := 0; successfulExecutions := 0;
                 failedExecutions := 0; lastExecution := None |};
     config := None |}.

(** The errors the runner throws, one constructor per [throw] site;
    [error_text] is the message of the thrown [Error].  [Uncaught] is an
    exception of the platform that passes through the runner unchanged.
    [UnsoundCast] marks a parsed file whose [crons] array does not hold
    [{path: string, schedule: string}] objects: the source casts without
    checking, and its behaviour on such a file is not modelled. *)
Inductive RunnerError : Type :=
  | BaseUrlRequired
  | InvalidBaseUrl
  | ConfigNotFound (resolved : string)
  | ConfigParseError (resolved parserMessage : string)
  | ConfigShapeError
  | NoMatchingJobs
  | InvalidSchedule (jobPath jobSchedule : string)
  | JobNotFound (jobPath : string)
  | Uncaught (name message : string)
  | UnsoundCast.

Definition dquote : string := String "034"%char EmptyString.

Definition error_text (e : RunnerError) : string :=
  match e with
  | BaseUrlRequired => "baseUrl is required"
  | InvalidBaseUrl => "baseUrl must be a valid URL"
  | ConfigNotFound p => "Config file not found: " +:+ p
  | ConfigParseError p m => "Invalid JSON in " +:+ p +:+ ": " +:+ m
  | ConfigShapeError =>
      "Invalid vercel.json: missing " +:+ dquote +:+ "crons" +:+ dquote +:+ " array"
  | NoMatchingJobs => "No cron jobs found matching the filter"
  | InvalidSchedule p s => "Invalid cron schedule for " +:+ p +:+ ": " +:+ s
  | JobNotFound p => "Cron job not found: " +:+ p
  | Uncaught _ m => m
  | UnsoundCast => EmptyString
  end.

Inductive Outcome (A : Type) : Type :=
  | Ok (a : A)
  | Throw (e : RunnerError).
Arguments Ok {A} a.
Arguments Throw {A} e.

(** A method of the runner: it ends normally or throws, and either way
    leaves a runner and a world behind. *)
Definition M (A : Type) : Type :=
  CronRunner -> World -> Outcome A * CronRunner * World.

Definition ret {A} (a : A) : M A := fun r w => (Ok a, r, w).

Definition throw {A} (e : RunnerError) : M A := fun r w => (Throw e, r, w).

Definition bind {A B} (m : M A) (k : A -> M B) : M B :=
  fun r w =>
    match m r w with
    | (Ok a, r', w') => k a r' w'
    | (Throw e, r', w') => (Throw e, r', w')
    end.

(** A computation that reads the state and may throw without changing it. *)
Definition attempt {A} (f : CronRunner -> World -> Outcome A) : M A :=
  fun r w => (f r w, r, w).

Definition update_runner (f : CronRunner -> CronRunner) : M unit :=
  fun r w => (Ok tt, f r, w).

(** A method that cannot throw. *)
Definition total {A} (f : CronRunner -> World -> A * CronRunner * World) : M A :=
  fun r w => let '(a, r', w') := f r w in (Ok a, r', w').

Declare Scope runner_scope.
Delimit Scope runner_scope with runner.
Notation "'let*' x ':=' c1 'in' c2" := (bind c1 (fun x => c2))
  (at level 10, x name, c1 at level 100, c2 at level 200) : runner_scope.
Notation "c1 ';;' c2" := (bind c1 (fun _ => c2))
  (at level 100, c2 at level 200, right associativity) : runner_scope.

(** The value a call returned, if it returned. *)
Definition outcome_value {A} (x : Outcome A * CronRunner * World) : option A :=
  match x.1.1 with
  | Ok a => Some a
  | Throw _ => None
  end.

Definition outcome {A} (x : Outcome A * CronRunner * World) : Outcome A := x.1.1.
Definition runner_after {A} (x : Outcome A * CronRunner * World) : CronRunner := x.1.2.
Definition world_after {A} (x : Outcome A * CronRunner * World) : World := x.2.

Local Open Scope runner_scope.

(** ** The methods of [CronRunner] *)

Section Runner.
Context `{Platform}.

(** [validateOptions] *)
Definition validateOptions (o : ResolvedOptions) : Outcome unit :=
  if negb (str_truthy (Some (baseUrl o))) then Throw BaseUrlRequired
  else if negb (URL_parses (baseUrl o)) then Throw InvalidBaseUrl
  else Ok tt.

(** [new CronRunner(options)]; [w] supplies [process.env]. *)
Definition new_CronRunner (o : CronRunnerOptions) (w : World) : Outcome CronRunner :=
  let resolved :=
    {| baseUrl := opt_baseUrl o;
       cronSecret :=
         default EmptyString
           (str_or (str_or (opt_cronSecret o) (env_CRON_SECRET w)) (Some EmptyString));
       configPath := default "./vercel.json" (str_or (opt_configPath o) (Some "./vercel.json"));
       verbose := default 0 (opt_verbose o);
       filter := opt_filter o;
       fetch := opt_fetch o |} in
  match validateOptions resolved with
  | Throw e => Throw e
  | Ok _ => Ok (initial_runner resolved)
  end.

(** [config.crons] on the value [JSON.parse] returned: reading a
    property of [null] throws a [TypeError]; a value without the
    property gives [undefined]. *)
Definition get_crons (parsed : JsonValue) : Outcome (option JsonValue) :=
  match parsed with
  | JNull => Throw (Uncaught "TypeError" "Cannot read properties of null (reading 'crons')")
  | JObj fields => Ok (json_field "crons" fields)
  | _ => Ok None
  end.

(** The cast [as VercelCronConfig], checked. *)
Definition as_CronJob (v : JsonValue) : option CronJob :=
  match v with
  | JObj fields =>
      match json_field "path" fields, json_field "schedule" fields with
      | Some (JStr p), Some (JStr s) => Some {| path := p; schedule := s |}
      | _, _ => None
      end
  | _ => None
  end.

Fixpoint as_CronJobs (items : list JsonValue) : option (list CronJob) :=
  match items with
  | [] => Some []
  | v :: rest =>
      match as_CronJob v, as_CronJobs rest with
      | Some j, Some js => Some (j :: js)
      | _, _ => None
      end
  end.

(** [loadConfig] *)
Definition loadConfig (r : CronRunner) (w : World) : Outcome VercelCronConfig :=
  let resolved := path_resolve (configPath (options r)) in
  match files w !! resolved with
  | None => Throw (ConfigNotFound resolved)
  | Some content =>
      match JSON_parse content with
      | inr parserMessage => Throw (ConfigParseError resolved parserMessage)
      | inl parsed =>
          match get_crons parsed with
          | Throw e => Throw e
          | Ok field =>
              if negb (js_truthy field) || negb (Array_isArray field)
              then Throw ConfigShapeError
              else
                match field with
                | Some (JArr items) =>
                    match as_CronJobs items with
                    | Some jobs => Ok {| crons := jobs |}
                    | None => Throw UnsoundCast
                    end
                | _ => Throw ConfigShapeError
                end
          end
      end
  end.

(** [filterJobs]; the guard [!this.options.filter] also holds for the
    empty string. *)
Definition filterJobs (r : CronRunner) (jobs : list CronJob) : Outcome (list CronJob) :=
  if negb (str_truthy (filter (options r))) then Ok jobs
  else
    let pattern := replace_stars (default EmptyString (filter (options r))) in
    match RegExp_new ("^" +:+ pattern +:+ "$") with
    | inr message => Throw (Uncaught "SyntaxError" message)
    | inl regex => Ok (List.filter (fun job => RegExp_test regex (path job)) jobs)
    end.

(** [log] *)
Definition log (message : string) (isError : bool) (r : CronRunner) (w : World) : World :=
  if (verbose (options r) =? 0) && negb isError then w
  else
    set_console
      (console w ++
       [{| log_time := clock w; log_isError := isError; log_message := message |}])
      w.

(** [validateCronSchedule] *)
Definition validateCronSchedule (s : string) : bool := cron_validate s.

(** [error instanceof Error ? error.message : "Unknown error"] *)
Definition message_of (e : JsThrown) : string :=
  match e with
  | ThrownError _ message _ => message
  | ThrownValue _ => "Unknown error"
  end.

(** [response.headers.get(name)]: the values of the header joined by
    a comma, [null] when there is none; a response without a [headers]
    object makes the call throw. *)
Definition header_values (name : string) (hs : list (string * string)) : list string :=
  map snd (List.filter (fun kv => String.eqb (fst kv) name) hs).

Fixpoint join_comma (vs : list string) : string :=
  match vs with
  | [] => EmptyString
  | [v] => v
  | v :: rest => v +:+ ", " +:+ join_comma rest
  end.

Definition headers_get (name : string) (hs : option (list (string * string)))
  : option string + JsThrown :=
  match hs with
  | None =>
      inr (ThrownError "TypeError" "Cannot read properties of undefined (reading 'get')" None)
  | Some l =>
      match header_values name l with
      | [] => inl None
      | vs => inl (Some (join_comma vs))
      end
  end.

Definition maxBodySize : Z := 1024 * 10.

(** The inner [try] block of [executeCron]: the text kept for the log. *)
Definition read_body (response : Response) : string + JsThrown :=
  match headers_get "content-type" (headers response) with
  | inr e => inr e
  | inl _ =>
      match headers_get "content-length" (headers response) with
      | inr e => inr e
      | inl contentLength =>
          if negb (str_truthy contentLength)
             || match parseInt10 (default EmptyString contentLength) with
                | Some n => n <=? maxBodySize
                | None => false
                end
          then
            match body_text response with
            | inr e => inr e
            | inl text =>
                if Z.of_nat (String.length text) <=? maxBodySize then inl text
                else
                  inl (substring0 (Z.to_nat maxBodySize) text
                       +:+ "... [truncated, total length: "
                       +:+ num_to_string (Z.of_nat (String.length text)) +:+ "]")
            end
          else
            inl ("[Response body too large: " +:+ default EmptyString contentLength
                 +:+ " bytes, max: " +:+ num_to_string maxBodySize +:+ " bytes]")
      end
  end.

Definition responseBody_of (r : CronRunner) (response : Response) : option string :=
  if 2 <=? verbose (options r) then
    Some (match read_body response with
          | inl text => text
          | inr bodyError =>
              "[Unable to read response body: " +:+ message_of bodyError +:+ "]"
          end)
  else None.

Definition log_body (responseBody : option string) (isError : bool)
    (r : CronRunner) (w : World) : World :=
  if (2 <=? verbose (options r)) && str_truthy responseBody
  then log ("  Response body: " +:+ default EmptyString responseBody) isError r w
  else w.

Definition request_headers (r : CronRunner) : list (string * string) :=
  [("Content-Type", "application/json")]
  ++ (if str_truthy (Some (cronSecret (options r)))
      then [("Authorization", "Bearer " +:+ cronSecret (options r))]
      else []).

Definition request_for (job : CronJob) (r : CronRunner) : Request :=
  {| req_url := baseUrl (options r) +:+ path job;
     req_method := "GET";
     req_headers := request_headers r |}.

Definition count_success (s : CronRunnerStats) : CronRunnerStats :=
  {| totalJobs := totalJobs s; successfulExecutions := successfulExecutions s + 1;
     failedExecutions := failedExecutions s; lastExecution := lastExecution s |}.

Definition count_failure (s : CronRunnerStats) : CronRunnerStats :=
  {| totalJobs := totalJobs s; successfulExecutions := successfulExecutions s;
     failedExecutions := failedExecutions s + 1; lastExecution := lastExecution s |}.

Definition set_lastExecution (t : Z) (s : CronRunnerStats) : CronRunnerStats :=
  {| totalJobs := totalJobs s; successfulExecutions := successfulExecutions s;
     failedExecutions := failedExecutions s; lastExecution := Some t |}.

Definition set_totalJobs (n : Z) (s : CronRunnerStats) : CronRunnerStats :=
  {| totalJobs := n; successfulExecutions := successfulExecutions s;
     failedExecutions := failedExecutions s; lastExecution := lastExecution s |}.

Definition error_details (e : JsThrown) : string :=
  match e with
  | ThrownError name message stack =>
      "  Error name: " +:+ name +:+ String "010"%char EmptyString
      +:+ "  Error message: " +:+ message +:+ String "010"%char EmptyString
      +:+ "  Error stack: "
      +:+ (if str_truthy stack then default EmptyString stack else "N/A")
  | ThrownValue repr => "  Error: " +:+ repr
  end.

(** [executeCron].  The clock moves while the request is awaited. *)
Definition executeCron (job : CronJob) (r : CronRunner) (w : World)
  : CronExecutionResult * CronRunner * World :=
  let startTime := clock w in
  let timestamp := clock w in
  let w := log ("Executing cron: " +:+ path job) false r w in
  let request := request_for job r in
  let fetchFn := default (global_fetch w) (fetch (options r)) in
  let reply := fetchFn (requests w) request in
  let w := set_clock (clock w + reply_elapsed reply)
             (set_requests (requests w ++ [request]) w) in
  match reply_result reply with
  | inl response =>
      let duration := clock w - startTime in
      let responseBody := responseBody_of r response in
      let '(r, w) :=
        if ok response then
          let r := set_stats (count_success (stats r)) r in
          let w := log ("✓ Success: " +:+ path job +:+ " ("
                        +:+ num_to_string (status response) +:+ ") - "
                        +:+ num_to_string duration +:+ "ms") false r w in
          (r, log_body responseBody false r w)
        else
          let r := set_stats (count_failure (stats r)) r in
          let w := log ("✗ Failed: " +:+ path job +:+ " ("
                        +:+ num_to_string (status response) +:+ ") - "
                        +:+ num_to_string duration +:+ "ms") true r w in
          (r, log_body responseBody true r w) in
      let r := set_stats (set_lastExecution timestamp (stats r)) r in
      ({| res_path := path job; res_schedule := schedule job;
          success := ok response; statusCode := Some (status response);
          error := None; timestamp := timestamp; duration := duration |}, r, w)
  | inr thrown =>
      let duration := clock w - startTime in
      let r := set_stats (count_failure (stats r)) r in
      let errorMessage := message_of thrown in
      let w := log ("✗ Error: " +:+ path job +:+ " - " +:+ errorMessage) true r w in
      let w := if 2 <=? verbose (options r)
               then log (error_details thrown) true r w else w in
      ({| res_path := path job; res_schedule := schedule job;
          success := false; statusCode := None;
          error := Some errorMessage; timestamp := timestamp; duration := duration |}, r, w)
  end.

(** The body of the [for] loop of [start], job by job: a rejected
    schedule leaves the loop by [throw]. *)
Fixpoint start_loop (jobs : list CronJob) : M unit :=
  match jobs with
  | [] => ret tt
  | job :: rest =>
      if negb (validateCronSchedule (schedule job))
      then throw (InvalidSchedule (path job) (schedule job))
      else
        (fun r w =>
           let '(task, w) := cron_schedule (schedule job) job w in
           let r := set_tasks (Map_set (path job) task (tasks r)) r in
           let w := log ("Scheduled: " +:+ path job +:+ " (" +:+ schedule job +:+ ")")
                        false r w in
           start_loop rest r w)
  end.

Definition say (message : string) : M unit :=
  fun r w => (Ok tt, r, log message false r w).

(** [start] *)
Definition start : M unit :=
  let* loaded := attempt loadConfig in
  update_runner (set_config (Some loaded));;
  let* jobs := attempt (fun r _ => filterJobs r (crons loaded)) in
  if (length jobs =? 0)%nat then throw NoMatchingJobs
  else
    update_runner (fun r => set_stats (set_totalJobs (Z.of_nat (length jobs)) (stats r)) r);;
    say ("Starting " +:+ num_to_string (Z.of_nat (length jobs)) +:+ " cron job(s)...");;
    start_loop jobs;;
    say "All cron jobs started successfully".

Fixpoint stop_loop (entries : list (string * nat)) (r : CronRunner) (w : World) : World :=
  match entries with
  | [] => w
  | (key, task) :: rest =>
      let w := task_stop task w in
      let w := log ("Stopped: " +:+ key) false r w in
      stop_loop rest r w
  end.

(** [stop]; it has no [throw] and calls nothing that throws. *)
Definition stop (r : CronRunner) (w : World) : CronRunner * World :=
  let w := log "Stopping all cron jobs..." false r w in
  let w := stop_loop (tasks r) r w in
  let r := set_tasks [] r in
  (r, log "All cron jobs stopped" false r w).

(** The [for] loop of [executeAll], with its [results] array. *)
Fixpoint executeAll_loop (jobs : list CronJob) (results : list CronExecutionResult)
  : M (list CronExecutionResult) :=
  match jobs with
  | [] => ret results
  | job :: rest =>
      let* result := total (executeCron job) in
      executeAll_loop rest (results ++ [result])
  end.

(** [executeAll] *)
Definition executeAll : M (list CronExecutionResult) :=
  let* loaded := attempt loadConfig in
  update_runner (set_config (Some loaded));;
  let* jobs := attempt (fun r _ => filterJobs r (crons loaded)) in
  if (length jobs =? 0)%nat then throw NoMatchingJobs
  else
    say ("Executing " +:+ num_to_string (Z.of_nat (length jobs)) +:+ " cron job(s) once...");;
    executeAll_loop jobs [].

(** [executeOne] *)
Definition executeOne (p : string) : M CronExecutionResult :=
  let* loaded := attempt loadConfig in
  update_runner (set_config (Some loaded));;
  match List.find (fun j => String.eqb (path j) p) (crons loaded) with
  | None => throw (JobNotFound p)
  | Some job => total (executeCron job)
  end.

(** [getStats]: a copy of the counters. *)
Definition getStats (r : CronRunner) : CronRunnerStats := stats r.

(** [listJobs] *)
Definition listJobs : M (list CronJob) :=
  fun r w =>
    match config r with
    | Some present => (filterJobs r (crons present), r, w)
    | None =>
        (let* loaded := attempt loadConfig in
         update_runner (set_config (Some loaded));;
         attempt (fun r _ => filterJobs r (crons loaded))) r w
    end.

(** A registered task fires: the scheduler runs the callback given to
    [cron.schedule], which dispatches the job and drops the result. *)
Definition task_fires (task : nat) (r : CronRunner) (w : World) : CronRunner * World :=
  match scheduler w !! task with
  | Some t =>
      if task_running t then
        let '(_, r, w) := executeCron (task_job t) r w in (r, w)
      else (r, w)
  | None => (r, w)
  end.
End Runner.

(** ** A reference platform

    One executable [Platform], used to run the methods on concrete
    inputs.  Each service is kept small and says what it covers. *)

Module Reference.

(** [s.split(sep)] for a one-character separator. *)
Fixpoint split_on (sep : ascii) (current : string) (s : string) : list string :=
  match s with
  | EmptyString => [current]
  | String c rest =>
      if Ascii.eqb c sep then current :: split_on sep EmptyString rest
      else split_on sep (current +:+ String c EmptyString) rest
  end.

(** The node-cron double of the package's test suite:
    [schedule.split(' ').length === 5]. *)
Definition validate (expression : string) : bool :=
  (length (split_on " "%char EmptyString expression) =? 5)%nat.

(** [path.resolve] with working directory [/app]: segments are joined,
    [.] and empty segments dropped, [..] removes the segment before it. *)
Fixpoint normalize (segments : list string) (kept : list string) : list string :=
  match segments with
  | [] => kept
  | seg :: rest =>
      if String.eqb seg EmptyString || String.eqb seg "." then normalize rest kept
      else if String.eqb seg ".." then normalize rest (removelast kept)
      else normalize rest (kept ++ [seg])%list
  end.

Fixpoint join_path (segments : list string) : string :=
  match segments with
  | [] => EmptyString
  | seg :: rest => "/" +:+ seg +:+ join_path rest
  end.

Definition resolve (p : string) : string :=
  let absolute :=
    match p with
    | String "/" _ => p
    | _ => "/app/" +:+ p
    end in
  match normalize (split_on "/"%char EmptyString absolute) [] with
  | [] => "/"
  | segments => join_path segments
  end.

(** [new URL(s)] for the addresses the runner is given: an [http] or
    [https] scheme followed by a non-empty rest. *)
Definition url_parses (s : string) : bool :=
  match s with
  | String "h" (String "t" (String "t" (String "p" (String ":" (String "/" (String "/" (String _ _))))))) => true
  | String "h" (String "t" (String "t" (String "p" (String "s" (String ":" (String "/" (String "/" (String _ _)))))))) => true
  | _ => false
  end.

(** *** Regular expressions

    Sources made of literal characters, [.], [*] after an atom, a
    leading [^] and a trailing [$].  A [*] with nothing to repeat is a
    syntax error, as in JavaScript; sources that use any other
    operator are refused as well, which JavaScript does only when they
    are malformed. *)
Inductive Atom : Type := Lit (c : ascii) | AnyChar.
Inductive Item : Type := One (a : Atom) | Many (a : Atom).
Record Regex : Type := { from_start : bool; items : list Item; to_end : bool }.

Definition is_operator (c : ascii) : bool :=
  existsb (Ascii.eqb c)
    ["\"; "("; ")"; "["; "]"; "{"; "}"; "+"; "?"; "|"; "^"; "$"]%char.

Definition flush (pending : option Atom) : list Item :=
  match pending with
  | Some a => [One a]
  | None => []
  end.

Fixpoint parse_items (pending : option Atom) (s : string) : option (list Item * bool) :=
  match s with
  | EmptyString => Some (flush pending, false)
  | String c rest =>
      if Ascii.eqb c "*" then
        match pending with
        | Some a =>
            match parse_items None rest with
            | Some (its, e) => Some (Many a :: its, e)
            | None => None
            end
        | None => None
        end
      else if Ascii.eqb c "$" && String.eqb rest EmptyString then Some (flush pending, true)
      else if is_operator c then None
      else
        match parse_items (Some (if Ascii.eqb c "." then AnyChar else Lit c)) rest with
        | Some (its, e) => Some ((flush pending ++ its)%list, e)
        | None => None
        end
  end.

Definition compile (source : string) : Regex + string :=
  let '(anchored, body) :=
    match source with
    | String "^" rest => (true, rest)
    | _ => (false, source)
    end in
  match parse_items None body with
  | Some (its, e) => inl {| from_start := anchored; items := its; to_end := e |}
  | None => inr ("Invalid regular expression: /" +:+ source +:+ "/")
  end.

(** [.] matches every character but a line terminator. *)
Definition atom_matches (a : Atom) (c : ascii) : bool :=
  match a with
  | Lit l => Ascii.eqb l c
  | AnyChar => negb (Ascii.eqb c "010" || Ascii.eqb c "013")
  end.

Fixpoint match_here (its : list Item) (to_end : bool) (s : string) : bool :=
  match its with
  | [] => if to_end then String.eqb s EmptyString else true
  | One a :: rest =>
      match s with
      | String c s' => atom_matches a c && match_here rest to_end s'
      | EmptyString => false
      end
  | Many a :: rest =>
      (fix many (t : string) : bool :=
         match_here rest to_end t
         || match t with
            | String c t' => atom_matches a c && many t'
            | EmptyString => false
            end) s
  end.

Fixpoint match_anywhere (its : list Item) (to_end : bool) (s : string) : bool :=
  match_here its to_end s
  || match s with
     | String _ s' => match_anywhere its to_end s'
     | EmptyString => false
     end.

Definition test (re : Regex) (s : string) : bool :=
  if from_start re then match_here (items re) (to_end re) s
  else match_anywhere (items re) (to_end re) s.

(** *** JSON

    A recursive-descent reader for JSON texts whose numbers are
    integers and whose strings use no [\u] escape; other texts are
    reported as syntax errors.  The message of the error is fixed. *)
Definition is_json_space (c : ascii) : bool :=
  existsb (Ascii.eqb c) [" "; "009"; "010"; "013"]%char.

Fixpoint skip_ws (s : string) : string :=
  match s with
  | String c rest => if is_json_space c then skip_ws rest else s
  | EmptyString => s
  end.

Definition unescape (c : ascii) : option ascii :=
  if Ascii.eqb c "034" then Some "034"%char
  else if Ascii.eqb c "\" then Some "\"%char
  else if Ascii.eqb c "/" then Some "/"%char
  else if Ascii.eqb c "b" then Some "008"%char
  else if Ascii.eqb c "f" then Some "012"%char
  else if Ascii.eqb c "n" then Some "010"%char
  else if Ascii.eqb c "r" then Some "013"%char
  else if Ascii.eqb c "t" then Some "009"%char
  else None.

(** The characters of a string literal, after its opening quote. *)
Fixpoint parse_chars (s : string) (acc : string) : option (string * string) :=
  match s with
  | EmptyString => None
  | String c rest =>
      if Ascii.eqb c "034" then Some (acc, rest)
      else if Ascii.eqb c "\" then
        match rest with
        | String e rest' =>
            match unescape e with
            | Some ch => parse_chars rest' (acc +:+ String ch EmptyString)
            | None => None
            end
        | EmptyString => None
        end
      else if (nat_of_ascii c <? 32)%nat then None
      else parse_chars rest (acc +:+ String c EmptyString)
  end.

Fixpoint take_digits (s : string) (acc : Z) : Z * string :=
  match s with
  | String c rest =>
      match digit_of c with
      | Some d => take_digits rest (10 * acc + d)
      | None => (acc, s)
      end
  | EmptyString => (acc, s)
  end.

Definition continues_number (s : string) : bool :=
  match s with
  | String c _ =>
      match digit_of c with
      | Some _ => true
      | None => existsb (Ascii.eqb c) ["."; "e"; "E"]%char
      end
  | EmptyString => false
  end.

Definition parse_int (s : string) : option (Z * string) :=
  let '(negative, t) :=
    match s with
    | String "-" rest => (true, rest)
    | _ => (false, s)
    end in
  match t with
  | String c rest =>
      match digit_of c with
      | Some d =>
          let '(n, rest') := if d =? 0 then (0, rest) else take_digits rest d in
          if continues_number rest' then None
          else Some (if negative then - n else n, rest')
      | None => None
      end
  | EmptyString => None
  end.

Fixpoint expect (word : string) (s : string) : option string :=
  match word, s with
  | EmptyString, _ => Some s
  | String a word', String b s' => if Ascii.eqb a b then expect word' s' else None
  | String _ _, EmptyString => None
  end.

Fixpoint parse_value (fuel : nat) (s : string) : option (JsonValue * string) :=
  match fuel with
  | O => None
  | S fuel =>
      match skip_ws s with
      | EmptyString => None
      | String c rest =>
          if Ascii.eqb c "n" then rest' ← expect "ull" rest; Some (JNull, rest')
          else if Ascii.eqb c "t" then rest' ← expect "rue" rest; Some (JBool true, rest')
          else if Ascii.eqb c "f" then rest' ← expect "alse" rest; Some (JBool false, rest')
          else if Ascii.eqb c "034" then
            match parse_chars rest EmptyString with
            | Some (str, rest') => Some (JStr str, rest')
            | None => None
            end
          else if Ascii.eqb c "[" then
            match skip_ws rest with
            | String "]" rest' => Some (JArr [], rest')
            | _ =>
                match parse_elements fuel rest with
                | Some (vs, rest') => Some (JArr vs, rest')
                | None => None
                end
            end
          else if Ascii.eqb c "{" then
            match skip_ws rest with
            | String "}" rest' => Some (JObj [], rest')
            | _ =>
                match parse_members fuel rest with
                | Some (fs, rest') => Some (JObj fs, rest')
                | None => None
                end
            end
          else
            match parse_int (String c rest) with
            | Some (n, rest') => Some (JNum n, rest')
            | None => None
            end
      end
  end
with parse_elements (fuel : nat) (s : string) : option (list JsonValue * string) :=
  match fuel with
  | O => None
  | S fuel =>
      match parse_value fuel s with
      | Some (v, rest) =>
          match skip_ws rest with
          | String "," rest' =>
              match parse_elements fuel rest' with
              | Some (vs, rest'') => Some (v :: vs, rest'')
              | None => None
              end
          | String "]" rest' => Some ([v], rest')
          | _ => None
          end
      | None => None
      end
  end
with parse_members (fuel : nat) (s : string)
  : option (list (string * JsonValue) * string) :=
  match fuel with
  | O => None
  | S fuel =>
      match skip_ws s with
      | String "034" rest =>
          match parse_chars rest EmptyString with
          | Some (key, rest1) =>
              match skip_ws rest1 with
              | String ":" rest2 =>
                  match parse_value fuel rest2 with
                  | Some (v, rest3) =>
                      match skip_ws rest3 with
                      | String "," rest4 =>
                          match parse_members fuel rest4 with
                          | Some (fs, rest5) => Some ((key, v) :: fs, rest5)
                          | None => None
                          end
                      | String "}" rest4 => Some ([(key, v)], rest4)
                      | _ => None
                      end
                  | None => None
                  end
              | _ => None
              end
          | None => None
          end
      | _ => None
      end
  end.

Definition parse (text : string) : JsonValue + string :=
  match parse_value (2 * String.length text + 2) text with
  | Some (v, rest) =>
      match skip_ws rest with
      | EmptyString => inl v
      | _ => inr "Unexpected token in JSON"
      end
  | None => inr "Unexpected token in JSON"
  end.

(** A filter pattern that uses none of the refused operators. *)
Definition operator_free (p : string) : Prop :=
  forall c, In c (list_ascii_of_string p) -> is_operator c = false.

(** The items [compile] makes of the translation of such a pattern. *)
Fixpoint glob_items (p : string) : list Item :=
  match p with
  | EmptyString => []
  | String c rest =>
      if Ascii.eqb c "*" then Many AnyChar :: glob_items rest
      else One (if Ascii.eqb c "." then AnyChar else Lit c) :: glob_items rest
  end.

(** The wildcard reading of a filter pattern, on the pattern itself:
    [*] stands for any run of characters free of line terminators,
    [.], which the translation does not escape, for any one such
    character, and every other character for itself. *)
Fixpoint wildcard (p : string) (s : string) : bool :=
  match p with
  | EmptyString => String.eqb s EmptyString
  | String c rest =>
      if Ascii.eqb c "*" then
        (fix run (t : string) : bool :=
           wildcard rest t
           || match t with
              | String d t' => atom_matches AnyChar d && run t'
              | EmptyString => false
              end) s
      else
        match s with
        | String d s' =>
            atom_matches (if Ascii.eqb c "." then AnyChar else Lit c) d && wildcard rest s'
        | EmptyString => false
        end
  end.

#[export] Instance platform : Platform :=
  {| path_resolve := resolve;
     JSON_parse := parse;
     RegExp := Regex;
     RegExp_new := compile;
     RegExp_test := test;
     URL_parses := url_parses;
     cron_validate := validate |}.

(** Writes a JSON text with apostrophes in place of double quotes. *)
Fixpoint quoted (s : string) : string :=
  match s with
  | EmptyString => EmptyString
  | String c rest =>
      String (if Ascii.eqb c "'" then "034"%char else c) (quoted rest)
  end.
End Reference.

(** ** The specification's reading of the operations *)

Section Reading.
Context `{Platform}.



(** A DispatchResult that classifies what the transport answered. *)
Definition classifies (reply : Response + JsThrown) (res : CronExecutionResult) : Prop :=
  match reply with
  | inl response =>
      success res = ok response
      /\ statusCode res = Some (status response)
      /\ error res = None
  | inr thrown =>
      success res = false
      /\ error res = Some (message_of thrown)
      /\ statusCode res = None
  end.

(** One dispatch seen from StatsAggregator: one counter moves by one and
    [lastExecution] becomes the time of the dispatch. *)
Definition counted_once (before after : CronRunnerStats) (at_time : Z) : Prop :=
  totalJobs after = totalJobs before
  /\ ((successfulExecutions after = successfulExecutions before + 1
       /\ failedExecutions after = failedExecutions before)
      \/ (successfulExecutions after = successfulExecutions before
          /\ failedExecutions after = failedExecutions before + 1))
  /\ lastExecution after = Some at_time.

(** The transport a runner uses, and what it answers to a dispatch. *)
Definition transport_of (r : CronRunner) (w : World) : FetchFn :=
  default (global_fetch w) (fetch (options r)).

Definition reply_to (job : CronJob) (r : CronRunner) (w : World) : FetchReply :=
  transport_of r w (requests w) (request_for job r).

(** The value of a header in a request. *)
Definition header_of (name : string) (q : Request) : option string :=
  snd <$> List.find (fun kv => String.eqb (fst kv) name) (req_headers q).

(** The secret the constructor settles on. *)
Definition resolved_secret (explicit ambient : option string) : string :=
  match explicit with
  | Some s => if String.eqb s EmptyString then
                match ambient with Some a => a | None => EmptyString end
              else s
  | None => match ambient with Some a => a | None => EmptyString end
  end.

(** A method that does not look at the configuration kept in the
    runner: whatever was stored, it ends the same way, in the same
    world, with the same timers and counters. *)
Definition ignores_stored_config {A} (m : M A) : Prop :=
  forall r w c,
    outcome (m (set_config c r) w) = outcome (m r w)
    /\ world_after (m (set_config c r) w) = world_after (m r w)
    /\ tasks (runner_after (m (set_config c r) w)) = tasks (runner_after (m r w))
    /\ stats (runner_after (m (set_config c r) w)) = stats (runner_after (m r w)).

(** The handles kept in the Active Timer Set. *)
Definition handles (r : CronRunner) : list nat := map snd (tasks r).

(** The first job, in list order, whose schedule is rejected. *)
Definition first_invalid (jobs : list CronJob) : option CronJob :=
  List.find (fun job => negb (validateCronSchedule (schedule job))) jobs.

(** The jobs that come before it. *)
Fixpoint valid_prefix (jobs : list CronJob) : list CronJob :=
  match jobs with
  | [] => []
  | job :: rest =>
      if validateCronSchedule (schedule job) then job :: valid_prefix rest else []
  end.

(** The same runner built with another filter option. *)
Definition with_filter (pattern : option string) (r : CronRunner) : CronRunner :=
  {| options :=
       {| baseUrl := baseUrl (options r); cronSecret := cronSecret (options r);
          configPath := configPath (options r); verbose := verbose (options r);
          filter := pattern; fetch := fetch (options r) |};
     tasks := tasks r; stats := stats r; config := config r |}.
End Reading.

(** ** Scenarios of the test suite *)

Module Scenario.
Import Reference.

Definition mockConfigPath : string := "/tmp/test-vercel.json".

Definition mockConfig : string :=
  quoted ("{'crons': [{'path': '/api/crons/test1', 'schedule': '* * * * *'},"
          +:+ " {'path': '/api/crons/test2', 'schedule': '0 8 * * *'},"
          +:+ " {'path': '/api/crons/notifications/test3', 'schedule': '*/5 * * * *'}]}").

Definition test1 : CronJob := {| path := "/api/crons/test1"; schedule := "* * * * *" |}.
Definition test2 : CronJob := {| path := "/api/crons/test2"; schedule := "0 8 * * *" |}.
Definition test3 : CronJob :=
  {| path := "/api/crons/notifications/test3"; schedule := "*/5 * * * *" |}.

(** A configuration whose second job has a schedule that is rejected. *)
Definition secondInvalid : string :=
  quoted ("{'crons': [{'path': '/api/crons/a', 'schedule': '* * * * *'},"
          +:+ " {'path': '/api/crons/b', 'schedule': 'invalid'}]}").

(** [{ ok, status }], the response of the mocked transports. *)
Definition mockResponse (isOk : bool) (code : Z) : Response + JsThrown :=
  inl {| ok := isOk; status := code; headers := None;
         body_text := inr (ThrownError "TypeError" "response.clone is not a function" None) |}.

Definition networkError : Response + JsThrown :=
  inr (ThrownError "Error" "Network error" None).

(** A transport that gives its answers in turn, five milliseconds each. *)
Definition answering (answers : list (Response + JsThrown)) : FetchFn :=
  fun history _ =>
    {| reply_result := nth (length history) answers networkError;
       reply_elapsed := 5 |}.

Definition world_with (text : string) : World :=
  {| files := {[ mockConfigPath := text ]};
     env_CRON_SECRET := None;
     clock := 1000;
     console := [];
     global_fetch := answering [];
     requests := [];
     scheduler := [] |}.

Definition engine (pattern : option string) (secret : string) (transport : FetchFn)
  : CronRunner :=
  initial_runner
    {| baseUrl := "http://localhost:3000";
       cronSecret := secret;
       configPath := mockConfigPath;
       verbose := 0;
       filter := pattern;
       fetch := Some transport |}.

(** The options object that [engine] is constructed from. *)
Definition options_for (pattern : option string) (secret : option string)
    (transport : FetchFn) : CronRunnerOptions :=
  {| opt_baseUrl := "http://localhost:3000";
     opt_cronSecret := secret;
     opt_configPath := Some mockConfigPath;
     opt_verbose := None;
     opt_filter := pattern;
     opt_fetch := Some transport |}.

(** No filter, no secret, a transport that is never reached. *)
Definition plainEngine : CronRunner := engine None EmptyString (answering []).


(** A transport whose first call rejects. *)
Definition offlineEngine : CronRunner := engine None EmptyString (answering [networkError]).

(** The transport of the statistics test: 200, 500, then a rejection. *)
Definition mixedEngine : CronRunner :=
  engine None EmptyString
    (answering [mockResponse true 200; mockResponse false 500; networkError]).

Definition secretEngine : CronRunner :=
  engine None "abc" (answering [mockResponse true 200]).

Definition notificationsEngine : CronRunner :=
  engine (Some "/api/crons/notifications/*") EmptyString (answering [mockResponse true 200]).

(** The two jobs of [secondInvalid]. *)
Definition jobA : CronJob := {| path := "/api/crons/a"; schedule := "* * * * *" |}.
Definition jobB : CronJob := {| path := "/api/crons/b"; schedule := "invalid" |}.


(** The state after [start] succeeded on [mockConfig]. *)
Definition watching : Outcome unit * CronRunner * World :=
  start plainEngine (world_with mockConfig).
End Scenario.

(** ** The command line (first part of src/cli.ts) *)

Record CliArgs : Type := {
  cli_url : option string;
  cli_secret : option string;
  cli_config : option string;
  cli_verbose : option Z;
  cli_filter : option string;
  cli_once : option bool;
  cli_list : option bool;
  cli_execute : option string;
  cli_help : option bool;
}.

(** [const args: CliArgs = {}] *)
Definition no_args : CliArgs :=
  {| cli_url := None; cli_secret := None; cli_config := None; cli_verbose := None;
     cli_filter := None; cli_once := None; cli_list := None; cli_execute := None;
     cli_help := None |}.

Definition put_url (v : option string) (a : CliArgs) : CliArgs :=
  {| cli_url := v; cli_secret := cli_secret a; cli_config := cli_config a;
     cli_verbose := cli_verbose a; cli_filter := cli_filter a; cli_once := cli_once a;
     cli_list := cli_list a; cli_execute := cli_execute a; cli_help := cli_help a |}.

Definition put_secret (v : option string) (a : CliArgs) : CliArgs :=
  {| cli_url := cli_url a; cli_secret := v; cli_config := cli_config a;
     cli_verbose := cli_verbose a; cli_filter := cli_filter a; cli_once := cli_once a;
     cli_list := cli_list a; cli_execute := cli_execute a; cli_help := cli_help a |}.

Definition put_config (v : option string) (a : CliArgs) : CliArgs :=
  {| cli_url := cli_url a; cli_secret := cli_secret a; cli_config := v;
     cli_verbose := cli_verbose a; cli_filter := cli_filter a; cli_once := cli_once a;
     cli_list := cli_list a; cli_execute := cli_execute a; cli_help := cli_help a |}.

Definition put_verbose (v : option Z) (a : CliArgs) : CliArgs :=
  {| cli_url := cli_url a; cli_secret := cli_secret a; cli_config := cli_config a;
     cli_verbose := v; cli_filter := cli_filter a; cli_once := cli_once a;
     cli_list := cli_list a; cli_execute := cli_execute a; cli_help := cli_help a |}.

Definition put_filter (v : option string) (a : CliArgs) : CliArgs :=
  {| cli_url := cli_url a; cli_secret := cli_secret a; cli_config := cli_config a;
     cli_verbose := cli_verbose a; cli_filter := v; cli_once := cli_once a;
     cli_list := cli_list a; cli_execute := cli_execute a; cli_help := cli_help a |}.

Definition put_once (a : CliArgs) : CliArgs :=
  {| cli_url := cli_url a; cli_secret := cli_secret a; cli_config := cli_config a;
     cli_verbose := cli_verbose a; cli_filter := cli_filter a; cli_once := Some true;
     cli_list := cli_list a; cli_execute := cli_execute a; cli_help := cli_help a |}.

Definition put_list (a : CliArgs) : CliArgs :=
  {| cli_url := cli_url a; cli_secret := cli_secret a; cli_config := cli_config a;
     cli_verbose := cli_verbose a; cli_filter := cli_filter a; cli_once := cli_once a;
     cli_list := Some true; cli_execute := cli_execute a; cli_help := cli_help a |}.

Definition put_execute (v : option string) (a : CliArgs) : CliArgs :=
  {| cli_url := cli_url a; cli_secret := cli_secret a; cli_config := cli_config a;
     cli_verbose := cli_verbose a; cli_filter := cli_filter a; cli_once := cli_once a;
     cli_list := cli_list a; cli_execute := v; cli_help := cli_help a |}.

Definition put_help (a : CliArgs) : CliArgs :=
  {| cli_url := cli_url a; cli_secret := cli_secret a; cli_config := cli_config a;
     cli_verbose := cli_verbose a; cli_filter := cli_filter a; cli_once := cli_once a;
     cli_list := cli_list a; cli_execute := cli_execute a; cli_help := Some true |}.

(** [arg.startsWith("-")] *)
Definition starts_with_dash (arg : string) : bool :=
  match arg with
  | String "-" _ => true
  | _ => false
  end.

(** One [case] group of the [switch]. *)
Definition is_flag (arg : string) (spellings : list string) : bool :=
  existsb (String.eqb arg) spellings.

(** The [for] loop of [parseArgs] over what is left of [argv].  An
    option that takes a value reads [argv[++i]], which is [undefined]
    when the option is the last word. *)
Fixpoint parseArgs_loop (argv : list string) (args : CliArgs) (verboseCount : Z)
  : CliArgs * Z :=
  match argv with
  | [] => (args, verboseCount)
  | arg :: rest =>
      if is_flag arg ["--url"; "-u"] then
        match rest with
        | v :: rest' => parseArgs_loop rest' (put_url (Some v) args) verboseCount
        | [] => (put_url None args, verboseCount)
        end
      else if is_flag arg ["--secret"; "-s"] then
        match rest with
        | v :: rest' => parseArgs_loop rest' (put_secret (Some v) args) verboseCount
        | [] => (put_secret None args, verboseCount)
        end
      else if is_flag arg ["--config"; "-c"] then
        match rest with
        | v :: rest' => parseArgs_loop rest' (put_config (Some v) args) verboseCount
        | [] => (put_config None args, verboseCount)
        end
      else if is_flag arg ["--verbose"] then parseArgs_loop rest args (verboseCount + 1)
      else if is_flag arg ["-v"] then parseArgs_loop rest args (verboseCount + 1)
      else if is_flag arg ["-vv"] then parseArgs_loop rest args 2
      else if is_flag arg ["--filter"; "-f"] then
        match rest with
        | v :: rest' => parseArgs_loop rest' (put_filter (Some v) args) verboseCount
        | [] => (put_filter None args, verboseCount)
        end
      else if is_flag arg ["--once"; "-o"] then parseArgs_loop rest (put_once args) verboseCount
      else if is_flag arg ["--list"; "-l"] then parseArgs_loop rest (put_list args) verboseCount
      else if is_flag arg ["--execute"; "-e"] then
        match rest with
        | v :: rest' => parseArgs_loop rest' (put_execute (Some v) args) verboseCount
        | [] => (put_execute None args, verboseCount)
        end
      else if is_flag arg ["--help"; "-h"] then parseArgs_loop rest (put_help args) verboseCount
      else if negb (starts_with_dash arg) then
        parseArgs_loop rest (put_url (Some arg) args) verboseCount
      else parseArgs_loop rest args verboseCount
  end.

(** [parseArgs]; [argv] is [process.argv.slice(2)]. *)
Definition parseArgs (argv : list string) : CliArgs :=
  let '(args, verboseCount) := parseArgs_loop argv no_args 0 in
  if 0 <? verboseCount then put_verbose (Some (Z.min verboseCount 2)) args else args.

Definition newline : string := String "010"%char EmptyString.

Fixpoint unlines (lines : list string) : string :=
  match lines with
  | [] => EmptyString
  | [l] => l
  | l :: rest => l +:+ newline +:+ unlines rest
  end.

(** The text [printHelp] writes. *)
Definition help_text : string :=
  newline +:+
  unlines
    ["nextjs-crons - Run Next.js Vercel cron jobs locally";
     EmptyString;
     "Usage:";
     "  nextjs-crons [options] [url]";
     EmptyString;
     "Options:";
     "  -u, --url <url>          Base URL of your Next.js app (required)";
     "  -s, --secret <secret>    Cron secret token (or use CRON_SECRET env var)";
     "  -c, --config <path>      Path to vercel.json (default: ./vercel.json)";
     "  -v, --verbose            Enable verbose logging (simple)";
     "  -vv                      Enable extended verbose logging (includes response body and error details)";
     "  -f, --filter <pattern>   Filter crons by path pattern (supports *)";
     "  -o, --once               Execute all crons once and exit";
     "  -l, --list               List all configured cron jobs and exit";
     "  -e, --execute <path>     Execute a specific cron job once and exit";
     "  -h, --help               Show this help message";
     EmptyString;
     "Examples:";
     "  # Start all crons in watch mode";
     "  nextjs-crons --url http://localhost:3000";
     EmptyString;
     "  # Execute all crons once";
     "  nextjs-crons --url http://localhost:3000 --once";
     EmptyString;
     "  # Filter specific crons";
     "  nextjs-crons --url http://localhost:3000 --filter " +:+ dquote +:+ "/api/crons/notifications/*" +:+ dquote;
     EmptyString;
     "  # Execute a specific cron";
     "  nextjs-crons --url http://localhost:3000 --execute " +:+ dquote +:+ "/api/crons/update-exchange-rates" +:+ dquote;
     EmptyString;
     "  # List all configured crons";
     "  nextjs-crons --list";
     EmptyString;
     "Environment Variables:";
     "  CRON_SECRET              Secret token for cron authentication"]
  +:+ newline +:+ "  ".

(** A line [main] writes itself, with [console.log] or [console.error]. *)
Inductive Printed : Type :=
  | Out (text : string)
  | Err (text : string).

(** What [main] leaves behind.  [exit_code] is the argument of the
    [process.exit] that ended the process, [None] when [main] returned
    and the process stays alive for its timers.  [printed] holds the
    lines of [main] itself in order; the lines the runner logs are in
    the console of [proc_world].  [proc_runner] is the runner in use,
    [listening] says that the signal handlers are installed. *)
Record Process : Type := {
  exit_code : option Z;
  printed : list Printed;
  proc_runner : option CronRunner;
  proc_world : World;
  listening : bool;
}.

(** [`${n}`] for a number that may be [undefined]. *)
Definition optional_number (n : option Z) : string :=
  match n with
  | Some n => num_to_string n
  | None => "undefined"
  end.

Definition bool_truthy (b : option bool) : bool := default false b.

Section CommandLine.
Context `{Platform}.

(** [process.exit(code)] *)
Definition exits (code : Z) (lines : list Printed) (r : option CronRunner) (w : World)
  : Process :=
  {| exit_code := Some code; printed := lines; proc_runner := r; proc_world := w;
     listening := false |}.

(** [console.error("Error:", error instanceof Error ? error.message : error)];
    everything the runner throws is an [Error]. *)
Definition report (e : RunnerError) : Printed := Err ("Error: " +:+ error_text e).

(** The three lines printed for a job in list mode. *)
Definition job_lines (job : CronJob) : list Printed :=
  [Out ("  " +:+ path job); Out ("    Schedule: " +:+ schedule job); Out EmptyString].

(** [main] *)
Definition main (argv : list string) (w : World) : Process :=
  let args := parseArgs argv in
  if bool_truthy (cli_help args) then exits 0 [Out help_text] None w
  else if bool_truthy (cli_list args) then
    match new_CronRunner
            {| opt_baseUrl := "http://localhost:3000"; opt_cronSecret := None;
               opt_configPath := cli_config args; opt_verbose := cli_verbose args;
               opt_filter := cli_filter args; opt_fetch := None |} w with
    | Throw e => exits 1 [report e] None w
    | Ok runner =>
        match listJobs runner w with
        | (Ok jobs, r, w') =>
            exits 0
              ([Out (newline +:+ "Found " +:+ num_to_string (Z.of_nat (length jobs))
                     +:+ " cron job(s):" +:+ newline)]
               ++ flat_map job_lines jobs)%list
              (Some r) w'
        | (Throw e, r, w') => exits 1 [report e] (Some r) w'
        end
    end
  else if negb (str_truthy (cli_url args)) then
    exits 1 [Err ("Error: --url is required" +:+ newline); Out help_text] None w
  else
    match new_CronRunner
            {| opt_baseUrl := default EmptyString (cli_url args);
               opt_cronSecret := cli_secret args;
               opt_configPath := cli_config args; opt_verbose := cli_verbose args;
               opt_filter := cli_filter args; opt_fetch := None |} w with
    | Throw e => exits 1 [report e] None w
    | Ok runner =>
        if str_truthy (cli_execute args) then
          let wanted := default EmptyString (cli_execute args) in
          match executeOne wanted runner w with
          | (Ok result, r, w') =>
              if success result then
                exits 0
                  [Out ("Executing cron: " +:+ wanted);
                   Out ("✓ Success (" +:+ optional_number (statusCode result) +:+ ") - "
                        +:+ num_to_string (duration result) +:+ "ms")]
                  (Some r) w'
              else
                exits 1
                  [Out ("Executing cron: " +:+ wanted);
                   Err ("✗ Failed: "
                        +:+ (if str_truthy (error result)
                             then default EmptyString (error result)
                             else "Status " +:+ optional_number (statusCode result)))]
                  (Some r) w'
          | (Throw e, r, w') =>
              exits 1 [Out ("Executing cron: " +:+ wanted); report e] (Some r) w'
          end
        else if bool_truthy (cli_once args) then
          match executeAll runner w with
          | (Ok results, r, w') =>
              let stats := getStats r in
              exits (if 0 <? failedExecutions stats then 1 else 0)
                [Out (newline +:+ "Execution completed:");
                 Out ("  Total: " +:+ num_to_string (Z.of_nat (length results)));
                 Out ("  Success: " +:+ num_to_string (successfulExecutions stats));
                 Out ("  Failed: " +:+ num_to_string (failedExecutions stats))]
                (Some r) w'
          | (Throw e, r, w') => exits 1 [report e] (Some r) w'
          end
        else
          match start runner w with
          | (Ok _, r, w') =>
              {| exit_code := None;
                 printed := [Out (newline +:+ "Cron runner is active. Press Ctrl+C to stop."
                                  +:+ newline)];
                 proc_runner := Some r; proc_world := w'; listening := true |}
          | (Throw e, r, w') => exits 1 [report e] (Some r) w'
          end
    end.

(** The handler [main] installs for SIGINT, run on the process [main]
    left.  Only the watch mode installs it; where it is not installed
    the model leaves the process as it is. *)
Definition on_SIGINT (p : Process) : Process :=
  match listening p, proc_runner p with
  | true, Some runner =>
      let '(r, w) := stop runner (proc_world p) in
      let stats := getStats r in
      exits 0
        (printed p ++
         [Out (newline +:+ newline +:+ "Shutting down...");
          Out (newline +:+ "Final statistics:");
          Out ("  Total jobs: " +:+ num_to_string (totalJobs stats));
          Out ("  Successful executions: " +:+ num_to_string (successfulExecutions stats));
          Out ("  Failed executions: " +:+ num_to_string (failedExecutions stats))])%list
        (Some r) w
  | _, _ => p
  end.

(** The handler for SIGTERM. *)
Definition on_SIGTERM (p : Process) : Process :=
  match listening p, proc_runner p with
  | true, Some runner =>
      let '(r, w) := stop runner (proc_world p) in
      exits 0 (printed p) (Some r) w
  | _, _ => p
  end.
End CommandLine.

(** ** Proof steps for the loop of [parseArgs] *)

(** Turns [E : is_flag arg spellings = true] into the spelling itself. *)
Ltac spelled E :=
  unfold is_flag in E; cbn in E; rewrite ?orb_false_r in E;
  repeat (apply orb_prop in E as [E | E]);
  apply String.eqb_eq in E; subst.

(** Splits on the [case] the [switch] of [parseArgs] takes for [arg]. *)
Ltac switch_on arg :=
  destruct (is_flag arg ["--url"; "-u"]) eqn:?Hcase; [|
  destruct (is_flag arg ["--secret"; "-s"]) eqn:?Hcase; [|
  destruct (is_flag arg ["--config"; "-c"]) eqn:?Hcase; [|
  destruct (is_flag arg ["--verbose"]) eqn:?Hcase; [|
  destruct (is_flag arg ["-v"]) eqn:?Hcase; [|
  destruct (is_flag arg ["-vv"]) eqn:?Hcase; [|
  destruct (is_flag arg ["--filter"; "-f"]) eqn:?Hcase; [|
  destruct (is_flag arg ["--once"; "-o"]) eqn:?Hcase; [|
  destruct (is_flag arg ["--list"; "-l"]) eqn:?Hcase; [|
  destruct (is_flag arg ["--execute"; "-e"]) eqn:?Hcase; [|
  destruct (is_flag arg ["--help"; "-h"]) eqn:?Hcase; [|
  destruct (negb (starts_with_dash arg)) eqn:?Hcase]]]]]]]]]]].

(** One turn of the loop on [arg :: rest]: every goal left is about a
    final pair or about the loop on what follows. *)
Ltac turn arg rest :=
  cbn [parseArgs_loop]; switch_on arg;
  [ destruct rest as [| ? ?] | destruct rest as [| ? ?] | destruct rest as [| ? ?]
  | | | | destruct rest as [| ? ?] | | | destruct rest as [| ? ?] | | | ].

(** Brings in the induction hypothesis for the call in the goal. *)
Ltac recall IH IH2 k :=
  match goal with |- context [parseArgs_loop ?l ?a ?c] =>
    first [ let Hr := fresh "Hrec" in pose proof (IH2 _ l eq_refl a c) as Hr; k Hr
          | let Hr := fresh "Hrec" in pose proof (IH a c) as Hr; k Hr ]
  end.

(** ** Scenarios of the command line *)

Module CliScenario.
Import Reference Scenario.

(** A configuration in which two jobs have the same path. *)
Definition sharedPath : string :=
  quoted ("{'crons': [{'path': '/api/crons/a', 'schedule': '* * * * *'},"
          +:+ " {'path': '/api/crons/a', 'schedule': '0 8 * * *'}]}").

Definition jobA2 : CronJob := {| path := "/api/crons/a"; schedule := "0 8 * * *" |}.

(** A world whose platform [fetch] answers 200 three times. *)
Definition serving (text : string) : World :=
  {| files := {[ mockConfigPath := text ]};
     env_CRON_SECRET := None;
     clock := 1000;
     console := [];
     global_fetch :=
       answering [mockResponse true 200; mockResponse true 200; mockResponse true 200];
     requests := [];
     scheduler := [] |}.

(** The runner [main] constructs for
    [http://localhost:3000 -c /tmp/test-vercel.json]. *)
Definition cliEngine : CronRunner :=
  initial_runner
    {| baseUrl := "http://localhost:3000";
       cronSecret := EmptyString;
       configPath := mockConfigPath;
       verbose := 0;
       filter := None;
       fetch := None |}.

Definition onceLine : list string :=
  ["http://localhost:3000"; "-c"; mockConfigPath; "--once"].

Definition executeLine : list string :=
  ["http://localhost:3000"; "-c"; mockConfigPath; "--once"; "--execute"; "/api/crons/test2"].

Definition watchLine : list string := ["http://localhost:3000"; "-c"; mockConfigPath].


(** A response that declares a body of 20000 bytes. *)
Definition largeResponse : Response :=
  {| ok := true; status := 200;
     headers := Some [("content-type", "text/plain"); ("content-length", "20000")];
     body_text := inl "ignored" |}.

(** An engine whose filter matches no job of [mockConfig]. *)
Definition strangerEngine : CronRunner :=
  engine (Some "/api/crons/non-existent/*") EmptyString (answering []).
End CliScenario.

(** ** Measures used in the statements *)

(** How many results report a success, how many a failure. *)
Definition succeeded (results : list CronExecutionResult) : Z :=
  Z.of_nat (length (List.filter success results)).

Definition failed (results : list CronExecutionResult) : Z :=
  Z.of_nat (length (List.filter (fun res => negb (success res)) results)).

(** The task [cron.schedule] creates for a job. *)
Definition timer_for (job : CronJob) : ScheduledTask :=
  {| task_expression := schedule job; task_job := job; task_running := true |}.

(** The options of the command line that read the next word. *)
Definition takes_value (arg : string) : bool :=
  is_flag arg ["--url"; "-u"; "--secret"; "-s"; "--config"; "-c";
               "--filter"; "-f"; "--execute"; "-e"].

(** The command line ends with such an option, its value missing. *)
Fixpoint awaits_value (argv : list string) : bool :=
  match argv with
  | [] => false
  | arg :: rest =>
      if takes_value arg then
        match rest with
        | [] => true
        | _ :: rest' => awaits_value rest'
        end
      else awaits_value rest
  end.

(** ** Readings used in the statements on results and on reloading *)

(** The [ok] getter of a [Response] that the platform's [fetch] built:
    the status is in the range 200 to 299.  A transport given in the
    options sets the field as it likes. *)
Definition Response_ok (code : Z) : bool := (200 <=? code) && (code <=? 299).

(** A status of the range 2xx to 3xx, which the specification takes
    for the statuses that are ok. *)
Definition status_2xx_3xx (code : Z) : bool := (200 <=? code) && (code <=? 399).


Section Backing.
Context `{Platform}.

(** The text of the configuration file of a runner, if the file is there. *)
Definition backing_file (r : CronRunner) (w : World) : option string :=
  files w !! path_resolve (configPath (options r)).

(** A text that [JSON.parse] reads as a value whose [crons] is the
    array of the jobs of [jobs]. *)
Definition file_holds (text : string) (jobs : list CronJob) : Prop :=
  exists parsed items,
    JSON_parse text = inl parsed
    /\ get_crons parsed = Ok (Some (JArr items))
    /\ as_CronJobs items = Some jobs.

(** The configuration file of a runner is written, or removed. *)
Definition edit_file (text : string) (r : CronRunner) (w : World) : World :=
  set_files (<[path_resolve (configPath (options r)) := text]> (files w)) w.

Definition remove_file (r : CronRunner) (w : World) : World :=
  set_files (delete (path_resolve (configPath (options r))) (files w)) w.

(** [start], [executeAll] and [executeOne] called on [r] in [w] act on
    the job list [jobs]: they keep it as the configuration; [start]
    counts its filtered jobs and schedules them up to the first
    rejected schedule, [executeAll] sends one request for each of
    them, in order, and [executeOne] looks its path up in the whole
    list. *)
Definition acts_on (jobs : list CronJob) (r : CronRunner) (w : World) : Prop :=
  config (runner_after (start r w)) = Some {| crons := jobs |}
  /\ config (runner_after (executeAll r w)) = Some {| crons := jobs |}
  /\ (forall p, config (runner_after (executeOne p r w)) = Some {| crons := jobs |})
  /\ (forall kept, filterJobs r jobs = Ok kept -> kept <> [] ->
        totalJobs (stats (runner_after (start r w))) = Z.of_nat (length kept)
        /\ scheduler (world_after (start r w))
           = (scheduler w ++ map timer_for (valid_prefix kept))%list
        /\ requests (world_after (executeAll r w))
           = (requests w ++ map (fun job => request_for job r) kept)%list)
  /\ (filterJobs r jobs = Ok [] ->
        outcome (start r w) = Throw NoMatchingJobs
        /\ outcome (executeAll r w) = Throw NoMatchingJobs)
  /\ (forall p, (forall j, In j jobs -> path j <> p) ->
        outcome (executeOne p r w) = Throw (JobNotFound p)
        /\ requests (world_after (executeOne p r w)) = requests w)
  /\ (forall p job, List.find (fun j => String.eqb (path j) p) jobs = Some job ->
        requests (world_after (executeOne p r w))
        = (requests w ++ [request_for job r])%list).
End Backing.

(** ** Scenarios at the edges of the operations *)

Module EdgeScenario.
Import Reference Scenario.

(** The answer 304 Not Modified, as [fetch] gives it. *)
Definition notModified : Response :=
  {| ok := Response_ok 304; status := 304; headers := Some []; body_text := inl EmptyString |}.

Definition notModifiedEngine : CronRunner :=
  engine None EmptyString (answering [inl notModified]).

(** A transport that rejects with [new Error()], whose message is empty. *)
Definition blankErrorEngine : CronRunner :=
  engine None EmptyString (answering [inr (ThrownError "Error" EmptyString None)]).




(** An engine at verbosity 2. *)
Definition talkativeEngine : CronRunner :=
  initial_runner
    {| baseUrl := "http://localhost:3000"; cronSecret := EmptyString;
       configPath := mockConfigPath; verbose := 2; filter := None;
       fetch := Some (answering []) |}.

(** A response that declares the two bytes of its body. *)
Definition smallResponse : Response :=
  {| ok := true; status := 200;
     headers := Some [("content-type", "text/plain"); ("content-length", "2")];
     body_text := inl "ok" |}.

(** The value [JSON.parse] makes of [secondInvalid]. *)
Definition secondInvalidItems : list JsonValue :=
  [JObj [("path", JStr "/api/crons/a"); ("schedule", JStr "* * * * *")];
   JObj [("path", JStr "/api/crons/b"); ("schedule", JStr "invalid")]].
End EdgeScenario.

(** * Properties *)

Arguments log : simpl never.
Arguments log_body : simpl never.
Arguments String.append : simpl never.
Arguments num_to_string : simpl never.
Arguments responseBody_of : simpl never.
Arguments request_for : simpl never.
Arguments error_details : simpl never.

Create Rewrite HintDb frame.

(** Pushes field reads through console writes and field updates. *)
Ltac frame := repeat (progress (autorewrite with frame; cbn)).

Section WorldFrame.
Context `{Platform}.

(** Writing to the console touches nothing else in the world. *)
Lemma log_frame message isError r w :
  files (log message isError r w) = files w
  /\ clock (log message isError r w) = clock w
  /\ requests (log message isError r w) = requests w
  /\ scheduler (log message isError r w) = scheduler w
  /\ global_fetch (log message isError r w) = global_fetch w.
Proof. unfold log. destruct (_ && _); repeat split; reflexivity. Qed.

Lemma log_scheduler message isError r w :
  scheduler (log message isError r w) = scheduler w.
Proof. apply log_frame. Qed.

Lemma log_requests message isError r w :
  requests (log message isError r w) = requests w.
Proof. apply log_frame. Qed.

Lemma log_global_fetch message isError r w :
  global_fetch (log message isError r w) = global_fetch w.
Proof. apply log_frame. Qed.

Lemma log_files message isError r w :
  files (log message isError r w) = files w.
Proof. apply log_frame. Qed.

Lemma log_clock message isError r w :
  clock (log message isError r w) = clock w.
Proof. apply log_frame. Qed.

Lemma log_is_running message isError r w task :
  is_running (log message isError r w) task = is_running w task.
Proof. unfold is_running. now rewrite log_scheduler. Qed.

Lemma log_body_scheduler body isError r w :
  scheduler (log_body body isError r w) = scheduler w.
Proof. unfold log_body. destruct (_ && _); [apply log_scheduler | reflexivity]. Qed.

Lemma log_body_requests body isError r w :
  requests (log_body body isError r w) = requests w.
Proof. unfold log_body. destruct (_ && _); [apply log_requests | reflexivity]. Qed.

Lemma log_body_global_fetch body isError r w :
  global_fetch (log_body body isError r w) = global_fetch w.
Proof. unfold log_body. destruct (_ && _); [apply log_global_fetch | reflexivity]. Qed.

Lemma log_body_files body isError r w :
  files (log_body body isError r w) = files w.
Proof. unfold log_body. destruct (_ && _); [apply log_files | reflexivity]. Qed.

Lemma log_body_clock body isError r w :
  clock (log_body body isError r w) = clock w.
Proof. unfold log_body. destruct (_ && _); [apply log_clock | reflexivity]. Qed.
End WorldFrame.

#[export] Hint Rewrite @log_scheduler @log_requests @log_global_fetch @log_files
  @log_clock @log_is_running @log_body_scheduler @log_body_requests
  @log_body_global_fetch @log_body_files @log_body_clock : frame.

Section Dispatch.
Context `{Platform}.

(** [executeCron] changes the counters only. *)
Lemma executeCron_runner_frame job r w :
  options (executeCron job r w).1.2 = options r
  /\ tasks (executeCron job r w).1.2 = tasks r
  /\ config (executeCron job r w).1.2 = config r.
Proof.
  unfold executeCron.
  destruct (reply_result _) as [response | thrown]; [destruct (ok response) |];
    repeat split; reflexivity.
Qed.

(** It sends one request, and leaves files and timers alone. *)
Lemma executeCron_world_frame job r w :
  requests (executeCron job r w).2 = (requests w ++ [request_for job r])%list
  /\ files (executeCron job r w).2 = files w
  /\ scheduler (executeCron job r w).2 = scheduler w
  /\ global_fetch (executeCron job r w).2 = global_fetch w.
Proof.
  unfold executeCron.
  destruct (reply_result _) as [response | thrown]; [destruct (ok response) |]; cbn;
    try destruct (2 <=? _); frame; repeat split; reflexivity.
Qed.

Lemma request_for_options job r r' :
  options r' = options r -> request_for job r' = request_for job r.
Proof. unfold request_for, request_headers. now intros ->. Qed.

Lemma transport_of_frame r r' w w' :
  options r' = options r -> global_fetch w' = global_fetch w ->
  transport_of r' w' = transport_of r w.
Proof. unfold transport_of. now intros -> ->. Qed.

(** The result of a dispatch classifies the answer of the transport. *)
Lemma executeCron_classifies job r w :
  res_path (executeCron job r w).1.1 = path job
  /\ res_schedule (executeCron job r w).1.1 = schedule job
  /\ timestamp (executeCron job r w).1.1 = clock w
  /\ classifies (reply_result (reply_to job r w)) (executeCron job r w).1.1.
Proof.
  unfold executeCron, reply_to, transport_of. frame.
  destruct (reply_result _) as [response | thrown]; [destruct (ok response) eqn:Hok |];
    cbn; rewrite ?Hok; repeat split; reflexivity.
Qed.

(** With a response in hand, one counter moves and the time is kept. *)
Lemma executeCron_counts_response job r w response :
  reply_result (reply_to job r w) = inl response ->
  counted_once (stats r) (stats (executeCron job r w).1.2) (clock w).
Proof.
  unfold executeCron, reply_to, transport_of, counted_once. frame. intros ->.
  destruct (ok response); cbn; repeat split; auto.
Qed.

(** When the transport throws, the failure is counted and nothing else
    in the counters changes. *)
Lemma executeCron_counts_thrown job r w thrown :
  reply_result (reply_to job r w) = inr thrown ->
  stats (executeCron job r w).1.2 = count_failure (stats r).
Proof.
  unfold executeCron, reply_to, transport_of. frame. now intros ->.
Qed.

Lemma request_for_shape job r :
  req_url (request_for job r) = baseUrl (options r) +:+ path job
  /\ req_method (request_for job r) = "GET"
  /\ header_of "Content-Type" (request_for job r) = Some "application/json"
  /\ header_of "Authorization" (request_for job r) =
       if String.eqb (cronSecret (options r)) EmptyString then None
       else Some ("Bearer " +:+ cronSecret (options r)).
Proof.
  unfold request_for, request_headers, header_of, str_truthy. cbn.
  destruct (String.eqb (cronSecret (options r)) EmptyString); cbn; repeat split; reflexivity.
Qed.

Lemma new_CronRunner_secret o w r :
  new_CronRunner o w = Ok r ->
  cronSecret (options r) = resolved_secret (opt_cronSecret o) (env_CRON_SECRET w).
Proof.
  unfold new_CronRunner. destruct (validateOptions _); [| discriminate].
  intros [= <-]. cbn. unfold resolved_secret, str_or, str_truthy.
  destruct (opt_cronSecret o) as [s |]; [destruct (String.eqb s EmptyString) eqn:Hs |];
    cbn; rewrite ?Hs; cbn.
  - destruct (env_CRON_SECRET w) as [amb |]; [destruct (String.eqb amb EmptyString) eqn:Ha |];
      cbn; rewrite ?Ha; cbn; try reflexivity.
    now apply String.eqb_eq in Ha.
  - reflexivity.
  - destruct (env_CRON_SECRET w) as [amb |]; [destruct (String.eqb amb EmptyString) eqn:Ha |];
      cbn; rewrite ?Ha; cbn; try reflexivity.
    now apply String.eqb_eq in Ha.
Qed.

(** The loop of [executeAll] dispatches the jobs in order, each result
    answering the request sent after those of the jobs before it. *)
Lemma executeAll_loop_in_order jobs : forall acc r w,
  exists results,
    outcome (executeAll_loop jobs acc r w) = Ok (acc ++ results)%list
    /\ length results = length jobs
    /\ forall i job, jobs !! i = Some job ->
         exists res, results !! i = Some res
           /\ res_path res = path job
           /\ res_schedule res = schedule job
           /\ classifies
                (reply_result
                   (transport_of r w
                      (requests w ++ map (fun j => request_for j r) (take i jobs))%list
                      (request_for job r)))
                res.
Proof.
  induction jobs as [| job rest IH]; intros acc r w.
  - exists []. cbn. rewrite app_nil_r. repeat split; auto. intros i j Hj. discriminate.
  - cbn [executeAll_loop]. unfold bind, total.
    destruct (executeCron job r w) as [[res r1] w1] eqn:Hx.
    pose proof (executeCron_runner_frame job r w) as (Hopt & _ & _).
    pose proof (executeCron_world_frame job r w) as (Hreq & _ & _ & Hfetch).
    pose proof (executeCron_classifies job r w) as (Hp & Hs & _ & Hc).
    rewrite Hx in Hopt, Hreq, Hfetch, Hp, Hs, Hc. cbn in Hopt, Hreq, Hfetch, Hp, Hs, Hc.
    destruct (IH (acc ++ [res])%list r1 w1) as (results & Hout & Hlen & Hall).
    exists (res :: results). split; [| split].
    + rewrite Hout. now rewrite <- app_assoc.
    + cbn. now rewrite Hlen.
    + intros [| i] j Hj.
      * injection Hj as <-. exists res. cbn. rewrite app_nil_r. auto.
      * destruct (Hall i j Hj) as (res' & Hres' & Hp' & Hs' & Hc').
        exists res'. repeat split; auto.
        rewrite (transport_of_frame r r1 w w1 Hopt Hfetch), Hreq in Hc'.
        rewrite (request_for_options j r r1 Hopt) in Hc'.
        cbn [take map]. rewrite <- app_assoc in Hc'. cbn in Hc'.
        erewrite map_ext in Hc'; [exact Hc' |].
        intros a. cbn. symmetry. now apply request_for_options.
Qed.
End Dispatch.

Section Timers.
Context `{Platform}.

Lemma task_stop_is_running task w other :
  is_running (task_stop task w) other =
  is_running w other && negb (Nat.eqb other task).
Proof.
  unfold is_running, task_stop. cbn.
  destruct (Nat.eqb other task) eqn:E.
  - apply Nat.eqb_eq in E as ->. rewrite list_lookup_alter_eq.
    destruct (scheduler w !! task); cbn; [| reflexivity]. now rewrite andb_false_r.
  - apply Nat.eqb_neq in E. rewrite list_lookup_alter_ne by congruence.
    now rewrite andb_true_r.
Qed.

(** After the loop of [stop], a task runs iff it ran before and its
    handle was not in the map. *)
Lemma stop_loop_is_running entries : forall r w task,
  is_running (stop_loop entries r w) task =
  is_running w task && negb (existsb (Nat.eqb task) (map snd entries)).
Proof.
  induction entries as [| [key h] rest IH]; intros r w task; cbn.
  - now rewrite andb_true_r.
  - rewrite IH, log_is_running, task_stop_is_running.
    rewrite negb_orb, andb_assoc. reflexivity.
Qed.

Lemma stop_loop_length entries : forall r w,
  length (scheduler (stop_loop entries r w)) = length (scheduler w).
Proof.
  induction entries as [| [key h] rest IH]; intros r w; cbn; [reflexivity |].
  rewrite IH, log_scheduler. unfold task_stop. cbn. apply length_alter.
Qed.

Lemma stop_loop_frame entries : forall r w,
  files (stop_loop entries r w) = files w
  /\ requests (stop_loop entries r w) = requests w.
Proof.
  induction entries as [| [key h] rest IH]; intros r w; cbn; [split; reflexivity |].
  destruct (IH r (log ("Stopped: " +:+ key) false r (task_stop h w))) as [-> ->].
  now frame.
Qed.

(** The loop of [start] leaves the counters, the options and the kept
    configuration alone. *)
Lemma start_loop_runner_frame jobs : forall r w,
  stats (runner_after (start_loop jobs r w)) = stats r
  /\ options (runner_after (start_loop jobs r w)) = options r
  /\ config (runner_after (start_loop jobs r w)) = config r.
Proof.
  induction jobs as [| job rest IH]; intros r w; cbn [start_loop].
  - repeat split; reflexivity.
  - destruct (negb _); [repeat split; reflexivity |].
    cbn. destruct (IH (set_tasks (Map_set (path job) (length (scheduler w)) (tasks r)) r)
                     (log ("Scheduled: " +:+ path job +:+ " (" +:+ schedule job +:+ ")") false
                        (set_tasks (Map_set (path job) (length (scheduler w)) (tasks r)) r)
                        (set_scheduler
                           (scheduler w ++
                            [{| task_expression := schedule job; task_job := job;
                                task_running := true |}]) w)))
      as (-> & -> & ->).
    repeat split; reflexivity.
Qed.

(** It throws for the first rejected schedule and for nothing else. *)
Lemma start_loop_outcome jobs : forall r w,
  outcome (start_loop jobs r w) =
  match first_invalid jobs with
  | Some job => Throw (InvalidSchedule (path job) (schedule job))
  | None => Ok tt
  end.
Proof.
  induction jobs as [| job rest IH]; intros r w; cbn [start_loop first_invalid List.find].
  - reflexivity.
  - destruct (negb _); [reflexivity |]. cbn. apply IH.
Qed.

(** By then it has created one running task for every job before it. *)
Lemma start_loop_scheduler jobs : forall r w,
  scheduler (world_after (start_loop jobs r w)) =
  (scheduler w ++
   map (fun job => {| task_expression := schedule job; task_job := job;
                      task_running := true |}) (valid_prefix jobs))%list.
Proof.
  induction jobs as [| job rest IH]; intros r w; cbn [start_loop valid_prefix].
  - cbn. now rewrite app_nil_r.
  - unfold validateCronSchedule in *. destruct (cron_validate (schedule job)); cbn.
    + rewrite IH. frame. now rewrite <- app_assoc.
    + now rewrite app_nil_r.
Qed.

(** Each of those jobs has its path in the map of the runner. *)
Lemma Map_set_keys key task m other :
  In other (map fst (Map_set key task m)) <-> other = key \/ In other (map fst m).
Proof.
  induction m as [| [k t] rest IH]; cbn.
  - intuition congruence.
  - destruct (String.eqb k key) eqn:E; cbn.
    + apply String.eqb_eq in E as ->. intuition congruence.
    + rewrite IH. intuition congruence.
Qed.

Lemma start_loop_keys jobs : forall r w key,
  In key (map fst (tasks (runner_after (start_loop jobs r w)))) <->
  In key (map path (valid_prefix jobs)) \/ In key (map fst (tasks r)).
Proof.
  induction jobs as [| job rest IH]; intros r w key; cbn [start_loop valid_prefix].
  - cbn. tauto.
  - unfold validateCronSchedule in *. destruct (cron_validate (schedule job)); cbn.
    + rewrite IH. cbn. rewrite Map_set_keys. intuition auto.
    + tauto.
Qed.
End Timers.

Section Engine.
Context `{Platform}.

(** [filterJobs] reads the options of the runner and nothing else. *)
Lemma filterJobs_options r r' jobs :
  options r' = options r -> filterJobs r' jobs = filterJobs r jobs.
Proof. unfold filterJobs. now intros ->. Qed.



(** The four ways [loadConfig] ends, and the one it misses. *)
Lemma loadConfig_missing r w :
  files w !! path_resolve (configPath (options r)) = None ->
  loadConfig r w = Throw (ConfigNotFound (path_resolve (configPath (options r)))).
Proof. unfold loadConfig. now intros ->. Qed.

Lemma loadConfig_malformed r w text parserMessage :
  files w !! path_resolve (configPath (options r)) = Some text ->
  JSON_parse text = inr parserMessage ->
  loadConfig r w =
    Throw (ConfigParseError (path_resolve (configPath (options r))) parserMessage).
Proof. unfold loadConfig. now intros -> ->. Qed.

Lemma loadConfig_null r w text :
  files w !! path_resolve (configPath (options r)) = Some text ->
  JSON_parse text = inl JNull ->
  loadConfig r w =
    Throw (Uncaught "TypeError" "Cannot read properties of null (reading 'crons')").
Proof. unfold loadConfig. now intros -> ->. Qed.

Lemma loadConfig_shape r w text parsed :
  files w !! path_resolve (configPath (options r)) = Some text ->
  JSON_parse text = inl parsed ->
  parsed <> JNull ->
  (forall field, get_crons parsed = Ok field -> Array_isArray field = false) ->
  loadConfig r w = Throw ConfigShapeError.
Proof.
  unfold loadConfig. intros -> -> Hnull Hshape.
  destruct (get_crons parsed) as [field |] eqn:Hget.
  - rewrite (Hshape field eq_refl), orb_true_r. reflexivity.
  - destruct parsed; try discriminate. congruence.
Qed.

Lemma loadConfig_returns r w text parsed items jobs :
  files w !! path_resolve (configPath (options r)) = Some text ->
  JSON_parse text = inl parsed ->
  get_crons parsed = Ok (Some (JArr items)) ->
  as_CronJobs items = Some jobs ->
  loadConfig r w = Ok {| crons := jobs |}.
Proof. unfold loadConfig. now intros -> -> -> ->. Qed.

(** [start] once the configuration is loaded and filtered: the count
    is stored, then the loop runs. *)
Lemma start_after_load r w cfg jobs :
  loadConfig r w = Ok cfg ->
  filterJobs r (crons cfg) = Ok jobs ->
  jobs <> [] ->
  start r w =
    (start_loop jobs;; say "All cron jobs started successfully")
      (set_stats (set_totalJobs (Z.of_nat (length jobs)) (stats r))
         (set_config (Some cfg) r))
      (log ("Starting " +:+ num_to_string (Z.of_nat (length jobs)) +:+ " cron job(s)...")
         false
         (set_stats (set_totalJobs (Z.of_nat (length jobs)) (stats r))
            (set_config (Some cfg) r))
         w).
Proof.
  intros Hload Hfilter Hjobs. unfold start, bind, attempt, update_runner.
  rewrite Hload. cbn.
  rewrite (filterJobs_options r (set_config (Some cfg) r)) by reflexivity.
  rewrite Hfilter. destruct jobs as [| job rest]; [congruence |]. reflexivity.
Qed.

Lemma executeAll_after_load r w cfg jobs :
  loadConfig r w = Ok cfg ->
  filterJobs r (crons cfg) = Ok jobs ->
  jobs <> [] ->
  executeAll r w =
    executeAll_loop jobs [] (set_config (Some cfg) r)
      (log ("Executing " +:+ num_to_string (Z.of_nat (length jobs)) +:+ " cron job(s) once...")
         false (set_config (Some cfg) r) w).
Proof.
  intros Hload Hfilter Hjobs. unfold executeAll, bind, attempt, update_runner.
  rewrite Hload. cbn.
  rewrite (filterJobs_options r (set_config (Some cfg) r)) by reflexivity.
  rewrite Hfilter. destruct jobs as [| job rest]; [congruence |]. reflexivity.
Qed.

Lemma executeOne_after_load p r w cfg :
  loadConfig r w = Ok cfg ->
  executeOne p r w =
    match List.find (fun j => String.eqb (path j) p) (crons cfg) with
    | None => (Throw (JobNotFound p), set_config (Some cfg) r, w)
    | Some job =>
        let '(res, r', w') := executeCron job (set_config (Some cfg) r) w in
        (Ok res, r', w')
    end.
Proof.
  intros Hload. unfold executeOne, bind, attempt, update_runner.
  rewrite Hload. cbn. destruct (List.find _ _); reflexivity.
Qed.

(** The result of a dispatch does not depend on the filter option. *)
Lemma executeCron_with_filter pattern job r w :
  (executeCron job (with_filter pattern r) w).1.1 = (executeCron job r w).1.1.
Proof.
  unfold executeCron, log, request_for, request_headers. cbn.
  destruct (verbose (options r) =? 0); cbn;
    (destruct (reply_result _) as [response | thrown]; [destruct (ok response) |]);
    reflexivity.
Qed.
End Engine.

(** * The claims *)

Arguments is_running : simpl never.
Arguments stop_loop : simpl never.

Section TimerRegistry.
Context `{Platform}.

(** A failed [start] keeps what its loop did before the rejected
    schedule: one running task per earlier job, each under its path. *)
Lemma start_failure_keeps_valid_prefix r w cfg jobs job :
  loadConfig r w = Ok cfg ->
  filterJobs r (crons cfg) = Ok jobs ->
  first_invalid jobs = Some job ->
  outcome (start r w) = Throw (InvalidSchedule (path job) (schedule job))
  /\ scheduler (world_after (start r w)) =
       (scheduler w ++
        map (fun j => {| task_expression := schedule j; task_job := j;
                         task_running := true |}) (valid_prefix jobs))%list
  /\ forall key, In key (map path (valid_prefix jobs)) ->
       In key (map fst (tasks (runner_after (start r w)))).
Proof.
  intros Hload Hfilter Hbad.
  assert (jobs <> []) as Hjobs by (intros ->; discriminate).
  rewrite (start_after_load r w cfg jobs Hload Hfilter Hjobs). unfold bind.
  match goal with |- context [start_loop jobs ?r1 ?w1] =>
    pose proof (start_loop_outcome jobs r1 w1) as Hout;
    pose proof (start_loop_scheduler jobs r1 w1) as Hsch;
    pose proof (start_loop_keys jobs r1 w1) as Hkeys;
    destruct (start_loop jobs r1 w1) as [[o r2] w2]
  end.
  rewrite Hbad in Hout. cbn in Hout, Hsch, Hkeys. subst o. cbn.
  rewrite Hsch. frame. repeat split; auto. intros key Hkey. apply Hkeys. now left.
Qed.

(** C10. On every [start] whose filtered job set is non-empty,
    [stats.totalJobs] receives the size of that set before the loop
    that validates and registers runs: at that point no timer has been
    added.  The value stays when the call then throws InvalidSchedule;
    nothing is rolled back. *)
Theorem start_sets_totalJobs_first r w cfg jobs :
  loadConfig r w = Ok cfg ->
  filterJobs r (crons cfg) = Ok jobs ->
  jobs <> [] ->
  (exists r1 w1,
      start r w = (start_loop jobs;; say "All cron jobs started successfully") r1 w1
      /\ totalJobs (stats r1) = Z.of_nat (length jobs)
      /\ tasks r1 = tasks r
      /\ scheduler w1 = scheduler w)
  /\ stats (runner_after (start r w)) = set_totalJobs (Z.of_nat (length jobs)) (stats r)
  /\ (forall job, first_invalid jobs = Some job ->
        outcome (start r w) = Throw (InvalidSchedule (path job) (schedule job))
        /\ totalJobs (stats (runner_after (start r w))) = Z.of_nat (length jobs)).
Proof.
  intros Hload Hfilter Hjobs.
  rewrite (start_after_load r w cfg jobs Hload Hfilter Hjobs).
  split; [| split].
  - eexists _, _. split; [reflexivity |]. frame. repeat split; reflexivity.
  - unfold bind.
    match goal with |- context [start_loop jobs ?r1 ?w1] =>
      pose proof (start_loop_runner_frame jobs r1 w1) as (Hstats & _);
      destruct (start_loop jobs r1 w1) as [[[[] | e] r2] w2]
    end; cbn in Hstats |- *; exact Hstats.
  - intros job Hbad. unfold bind.
    match goal with |- context [start_loop jobs ?r1 ?w1] =>
      pose proof (start_loop_runner_frame jobs r1 w1) as (Hstats & _);
      pose proof (start_loop_outcome jobs r1 w1) as Hout;
      destruct (start_loop jobs r1 w1) as [[o r2] w2]
    end.
    rewrite Hbad in Hout. cbn in Hout, Hstats. subst o. cbn. now rewrite Hstats.
Qed.
End TimerRegistry.

(** A task that is not running dispatches nothing when its time comes. *)
Lemma stopped_task_does_not_fire task r w :
  is_running w task = false -> task_fires task r w = (r, w).
Proof.
  unfold is_running, task_fires. destruct (scheduler w !! task) as [t |]; [| reflexivity].
  now intros ->.
Qed.

(** C8. [stop] is total and idempotent.  From any state it stops every
    handle of the Active Timer Set and leaves the set empty, touching no
    other timer and no field of RunnerStats; called again, or called
    with an empty set, it changes neither the runner nor any timer. *)
Theorem stop_idempotent_total (r : CronRunner) (w : World) :
  tasks (stop r w).1 = []
  /\ stats (stop r w).1 = stats r
  /\ (forall task, In task (handles r) -> is_running (stop r w).2 task = false)
  /\ (forall task, ~ In task (handles r) ->
        is_running (stop r w).2 task = is_running w task)
  /\ length (scheduler (stop r w).2) = length (scheduler w)
  /\ (stop (stop r w).1 (stop r w).2).1 = (stop r w).1
  /\ scheduler (stop (stop r w).1 (stop r w).2).2 = scheduler (stop r w).2
  /\ (tasks r = [] -> scheduler (stop r w).2 = scheduler w).
Proof.
  unfold stop, handles. cbn. frame.
  split; [reflexivity |]. split; [reflexivity |].
  split; [| split; [| split; [| split; [| split]]]].
  - intros task Hin. rewrite log_is_running, stop_loop_is_running, log_is_running.
    replace (existsb (Nat.eqb task) (map snd (tasks r))) with true.
    + apply andb_false_r.
    + symmetry. apply existsb_exists. exists task. split; [exact Hin | apply Nat.eqb_refl].
  - intros task Hout. rewrite log_is_running, stop_loop_is_running, log_is_running.
    replace (existsb (Nat.eqb task) (map snd (tasks r))) with false.
    + apply andb_true_r.
    + symmetry. apply not_true_is_false. intros Hex.
      apply existsb_exists in Hex as (h & Hin & Heq).
      apply Nat.eqb_eq in Heq as ->. contradiction.
  - now rewrite stop_loop_length, log_scheduler.
  - reflexivity.
  - change (stop_loop [] (set_tasks [] r)) with (fun w' : World => w'). now frame.
  - intros ->. change (stop_loop [] r) with (fun w' : World => w'). now frame.
Qed.

Section Dispatcher.
Context `{Platform}.

(** C9. Every dispatch sends one GET request.  Its headers always hold
    Content-Type: application/json, and hold Authorization exactly
    when the resolved secret is not empty, with the value Bearer
    followed by the secret.  The constructor resolves the secret from
    the explicit option, else from the environment, else to the empty
    string, so that with neither set no Authorization header is sent,
    and with a non-empty explicit secret every request carries it. *)
Theorem dispatch_request_headers :
  (forall o w r, new_CronRunner o w = Ok r ->
     cronSecret (options r) = resolved_secret (opt_cronSecret o) (env_CRON_SECRET w))
  /\ (forall job r w,
        requests (executeCron job r w).2 = (requests w ++ [request_for job r])%list)
  /\ (forall job r,
        req_method (request_for job r) = "GET"
        /\ req_url (request_for job r) = baseUrl (options r) +:+ path job
        /\ header_of "Content-Type" (request_for job r) = Some "application/json"
        /\ (is_Some (header_of "Authorization" (request_for job r))
            <-> cronSecret (options r) <> EmptyString)
        /\ (forall v, header_of "Authorization" (request_for job r) = Some v ->
              v = "Bearer " +:+ cronSecret (options r)))
  /\ (forall o w r job, new_CronRunner o w = Ok r ->
        opt_cronSecret o = None -> env_CRON_SECRET w = None ->
        header_of "Authorization" (request_for job r) = None)
  /\ (forall o w r job secret, new_CronRunner o w = Ok r ->
        opt_cronSecret o = Some secret -> secret <> EmptyString ->
        header_of "Authorization" (request_for job r) = Some ("Bearer " +:+ secret)).
Proof.
  split; [exact new_CronRunner_secret |].
  split; [intros job r w; apply executeCron_world_frame |].
  split; [| split].
  - intros job r.
    destruct (request_for_shape job r) as (Hurl & Hmethod & Htype & Hauth).
    repeat split; auto; rewrite Hauth;
      destruct (String.eqb (cronSecret (options r)) EmptyString) eqn:E.
    + intros [v Hv]. discriminate.
    + intros _. now apply String.eqb_neq in E.
    + intros Hne. apply String.eqb_eq in E. contradiction.
    + intros _. eauto.
    + discriminate.
    + now intros v [= <-].
  - intros o w r job Hnew Hopt Henv.
    destruct (request_for_shape job r) as (_ & _ & _ & ->).
    rewrite (new_CronRunner_secret o w r Hnew), Hopt, Henv. reflexivity.
  - intros o w r job secret Hnew Hopt Hne.
    destruct (request_for_shape job r) as (_ & _ & _ & ->).
    rewrite (new_CronRunner_secret o w r Hnew), Hopt. unfold resolved_secret.
    apply String.eqb_neq in Hne. rewrite Hne. cbn iota. now rewrite Hne.
Qed.

(** A response that is not ok is counted as a failure. *)
Lemma executeCron_counts_failed_response job r w response :
  reply_result (reply_to job r w) = inl response -> ok response = false ->
  failedExecutions (stats (executeCron job r w).1.2) = failedExecutions (stats r) + 1.
Proof.
  unfold executeCron, reply_to, transport_of. frame. intros -> Hok. now rewrite Hok.
Qed.

(** C3. When the transport gives a response, the result has [success]
    equal to the response's [ok], [statusCode] equal to its status and
    no [error], also for a status that is not ok.  The status plays no
    part in [success]: where [ok] follows the rule of [fetch], the
    result is a success exactly for a status from 200 to 299, and a
    status from 300 to 399 is a failure, counted as one.  When the
    transport throws, the result has [success] false, [error] equal to
    the message of the failure when it is an Error, also when that
    message is empty, and to Unknown error when it is anything else,
    and no [statusCode].  [executeAll] returns one such result per
    filtered job, in the order of the job list, the result of a job
    classifying the answer to the request sent for it. *)
Theorem dispatch_results :
  (forall job r w,
      res_path (executeCron job r w).1.1 = path job
      /\ res_schedule (executeCron job r w).1.1 = schedule job
      /\ classifies (reply_result (reply_to job r w)) (executeCron job r w).1.1)
  /\ (forall response res, classifies (inl response) res ->
        (success res = true <-> ok response = true)
        /\ statusCode res = Some (status response) /\ error res = None)
  /\ (forall thrown res, classifies (inr thrown) res ->
        success res = false /\ statusCode res = None
        /\ error res = Some (match thrown with
                             | ThrownError _ message _ => message
                             | ThrownValue _ => "Unknown error"
                             end))
  /\ (forall r w cfg jobs,
        loadConfig r w = Ok cfg ->
        filterJobs r (crons cfg) = Ok jobs ->
        jobs <> [] ->
        exists results,
          outcome (executeAll r w) = Ok results
          /\ length results = length jobs
          /\ forall i job, jobs !! i = Some job ->
               exists res, results !! i = Some res
                 /\ res_path res = path job
                 /\ res_schedule res = schedule job
                 /\ classifies
                      (reply_result
                         (transport_of r w
                            (requests w ++ map (fun j => request_for j r) (take i jobs))%list
                            (request_for job r)))
                      res)
  /\ (forall job r w response,
        reply_result (reply_to job r w) = inl response ->
        success (executeCron job r w).1.1 = ok response
        /\ (ok response = Response_ok (status response) ->
              (success (executeCron job r w).1.1 = true <-> 200 <= status response <= 299)
              /\ (300 <= status response <= 399 ->
                    success (executeCron job r w).1.1 = false
                    /\ statusCode (executeCron job r w).1.1 = Some (status response)
                    /\ failedExecutions (stats (executeCron job r w).1.2)
                       = failedExecutions (stats r) + 1))).
Proof.
  split; [| split; [| split; [| split]]].
  - intros job r w. destruct (executeCron_classifies job r w) as (? & ? & _ & ?). auto.
  - intros response res (Hs & Hc & He). rewrite Hs. repeat split; auto.
  - intros thrown res (Hs & He & Hc). destruct thrown; auto.
  - intros r w cfg jobs Hload Hfilter Hjobs.
    rewrite (executeAll_after_load r w cfg jobs Hload Hfilter Hjobs).
    match goal with |- context [executeAll_loop jobs [] ?r1 ?w1] =>
      destruct (executeAll_loop_in_order jobs [] r1 w1) as (results & Hout & Hlen & Hall)
    end.
    exists results. split; [exact Hout |]. split; [exact Hlen |].
    intros i job Hjob. destruct (Hall i job Hjob) as (res & Hres & Hp & Hs & Hc).
    exists res. repeat split; auto.
    unfold transport_of in *. autorewrite with frame in Hc. exact Hc.
  - intros job r w response Hreply.
    destruct (executeCron_classifies job r w) as (_ & _ & _ & Hclass).
    pose proof (executeCron_counts_failed_response job r w response Hreply) as Hfailed.
    rewrite Hreply in Hclass. destruct Hclass as (Hs & Hc & _).
    split; [exact Hs |]. intros Hok. rewrite Hs. split.
    + rewrite Hok. unfold Response_ok. rewrite andb_true_iff, !Z.leb_le. tauto.
    + intros Hrange.
      assert (ok response = false) as Hno.
      { rewrite Hok. unfold Response_ok. apply andb_false_iff. right. apply Z.leb_gt. lia. }
      split; [exact Hno |]. split; [exact Hc |]. now apply Hfailed.
Qed.
End Dispatcher.

(** The counters after a dispatch whose transport answered: exactly one
    of them grew by one, and [lastExecution] is the dispatch's time. *)
Lemma dispatch_with_response_counted_once job r w response :
  reply_result (reply_to job r w) = inl response ->
  counted_once (stats r) (stats (executeCron job r w).1.2) (clock w)
  /\ timestamp (executeCron job r w).1.1 = clock w.
Proof.
  intros Hreply. split; [now apply executeCron_counts_response with response |].
  apply executeCron_classifies.
Qed.

(** After a dispatch whose transport threw: the failure is counted and
    [lastExecution] is what it was. *)
Lemma dispatch_thrown_keeps_lastExecution job r w thrown :
  reply_result (reply_to job r w) = inr thrown ->
  failedExecutions (stats (executeCron job r w).1.2) = failedExecutions (stats r) + 1
  /\ successfulExecutions (stats (executeCron job r w).1.2) = successfulExecutions (stats r)
  /\ lastExecution (stats (executeCron job r w).1.2) = lastExecution (stats r).
Proof.
  intros Hreply. rewrite (executeCron_counts_thrown job r w thrown Hreply).
  repeat split; reflexivity.
Qed.

(** C2, on the code: a dispatch whose transport rejects.  The claim
    wants one counter to move by one and [lastExecution] to become the
    time of the dispatch.  The runner counts the failure, and leaves
    [lastExecution] unset: the assignment is made on the response path
    of [executeCron] only. *)
Theorem dispatch_thrown_leaves_lastExecution_unset :
  reply_result (reply_to Scenario.test1 Scenario.offlineEngine
                  (Scenario.world_with Scenario.mockConfig)) = Scenario.networkError
  /\ stats (executeCron Scenario.test1 Scenario.offlineEngine
              (Scenario.world_with Scenario.mockConfig)).1.2
     = {| totalJobs := 0; successfulExecutions := 0; failedExecutions := 1;
          lastExecution := None |}
  /\ ~ counted_once (stats Scenario.offlineEngine)
         (stats (executeCron Scenario.test1 Scenario.offlineEngine
                   (Scenario.world_with Scenario.mockConfig)).1.2)
         (clock (Scenario.world_with Scenario.mockConfig)).
Proof.
  split; [reflexivity |]. split; [reflexivity |].
  intros (_ & _ & Hlast). discriminate Hlast.
Qed.

Section Engine_operations.
Context `{Platform}.

Lemma find_none_iff p (jobs : list CronJob) :
  List.find (fun j => String.eqb (path j) p) jobs = None <->
  forall j, In j jobs -> path j <> p.
Proof.
  split.
  - intros Hnone j Hin Heq.
    pose proof (find_none _ _ Hnone j Hin) as Hno. cbn in Hno.
    apply String.eqb_neq in Hno. contradiction.
  - intros Hall. destruct (List.find _ jobs) as [job |] eqn:Hfind; [| reflexivity].
    apply find_some in Hfind as [Hin Heq]. apply String.eqb_eq in Heq.
    now destruct (Hall job Hin).
Qed.

(** C6. [executeOne p] looks [p] up by string equality in the whole
    job list of the configuration it has just loaded.  When no job has
    that path it throws JobNotFound and sends nothing.  Otherwise it
    dispatches the first job with that path and returns its result,
    whose path is [p].  The filter option plays no part. *)
Theorem executeOne_exact_unfiltered p r w cfg :
  loadConfig r w = Ok cfg ->
  ((forall j, In j (crons cfg) -> path j <> p) ->
      outcome (executeOne p r w) = Throw (JobNotFound p)
      /\ requests (world_after (executeOne p r w)) = requests w)
  /\ ((exists j, In j (crons cfg) /\ path j = p) ->
      exists job res,
        List.find (fun j => String.eqb (path j) p) (crons cfg) = Some job
        /\ In job (crons cfg)
        /\ path job = p
        /\ outcome (executeOne p r w) = Ok res
        /\ res = (executeCron job (set_config (Some cfg) r) w).1.1
        /\ res_path res = p
        /\ requests (world_after (executeOne p r w)) =
             (requests w ++ [request_for job r])%list)
  /\ (forall pattern,
        outcome (executeOne p (with_filter pattern r) w) = outcome (executeOne p r w)).
Proof.
  intros Hload. split; [| split].
  - intros Hall. rewrite (executeOne_after_load p r w cfg Hload).
    apply find_none_iff in Hall. rewrite Hall. split; reflexivity.
  - intros (j & Hin & Hpath). rewrite (executeOne_after_load p r w cfg Hload).
    destruct (List.find _ (crons cfg)) as [job |] eqn:Hfind.
    + pose proof (find_some _ _ Hfind) as [Hjob Heq]. apply String.eqb_eq in Heq.
      pose proof (executeCron_classifies job (set_config (Some cfg) r) w) as (Hp & _).
      pose proof (executeCron_world_frame job (set_config (Some cfg) r) w) as (Hreq & _).
      destruct (executeCron job (set_config (Some cfg) r) w) as [[res r'] w'] eqn:Hx.
      cbn in Hp, Hreq |- *. exists job, res. repeat split; auto.
      * now rewrite Hx.
      * congruence.
    + now destruct (proj1 (find_none_iff p (crons cfg)) Hfind j Hin).
  - intros pattern.
    assert (loadConfig (with_filter pattern r) w = Ok cfg) as Hload' by exact Hload.
    rewrite (executeOne_after_load p r w cfg Hload).
    rewrite (executeOne_after_load p (with_filter pattern r) w cfg Hload').
    destruct (List.find _ (crons cfg)) as [job |]; [| reflexivity].
    pose proof (executeCron_with_filter pattern job (set_config (Some cfg) r) w) as Hsame.
    change (set_config (Some cfg) (with_filter pattern r))
      with (with_filter pattern (set_config (Some cfg) r)).
    destruct (executeCron job (with_filter pattern (set_config (Some cfg) r)) w)
      as [[res1 r1] w1].
    destruct (executeCron job (set_config (Some cfg) r) w) as [[res2 r2] w2].
    cbn in Hsame |- *. now rewrite Hsame.
Qed.

Lemma executeAll_loop_config jobs : forall acc r w,
  config (runner_after (executeAll_loop jobs acc r w)) = config r.
Proof.
  induction jobs as [| job rest IH]; intros acc r w; cbn [executeAll_loop].
  - reflexivity.
  - unfold bind, total.
    pose proof (executeCron_runner_frame job r w) as (_ & _ & Hcfg).
    destruct (executeCron job r w) as [[res r1] w1]. cbn in Hcfg. now rewrite IH.
Qed.

Lemma start_ignores_stored_config : ignores_stored_config start.
Proof.
  intros r w c. unfold start, bind, attempt, update_runner.
  change (loadConfig (set_config c r) w) with (loadConfig r w).
  destruct (loadConfig r w) as [cfg | e]; repeat split; reflexivity.
Qed.

Lemma executeAll_ignores_stored_config : ignores_stored_config executeAll.
Proof.
  intros r w c. unfold executeAll, bind, attempt, update_runner.
  change (loadConfig (set_config c r) w) with (loadConfig r w).
  destruct (loadConfig r w) as [cfg | e]; repeat split; reflexivity.
Qed.

Lemma executeOne_ignores_stored_config p : ignores_stored_config (executeOne p).
Proof.
  intros r w c. unfold executeOne, bind, attempt, update_runner.
  change (loadConfig (set_config c r) w) with (loadConfig r w).
  destruct (loadConfig r w) as [cfg | e]; repeat split; reflexivity.
Qed.

End Engine_operations.

(** * The claims on the scenarios of the test suite *)

Section Scenarios.
Import Reference Scenario.

(** When the rejected schedule is that of the first job, nothing was
    registered: the case the test suite exercises. *)
Example start_first_job_invalid :
  let x := start plainEngine
             (world_with (quoted "{'crons': [{'path': '/api/crons/b', 'schedule': 'invalid'}]}")) in
  outcome x = Throw (InvalidSchedule "/api/crons/b" "invalid")
  /\ tasks (runner_after x) = []
  /\ scheduler (world_after x) = [].
Proof. vm_compute. repeat split; reflexivity. Qed.

(** C1, on the code: a configuration whose second job has the
    schedule [invalid].  The claim wants the Active Timer Set empty
    after the failed [start].  The call throws InvalidSchedule naming
    [/api/crons/b] and [invalid], and it leaves the timer of
    [/api/crons/a], registered earlier in the same loop, in the set
    and running; a following [stop] has one handle to clear. *)
Theorem start_failure_leaves_registered_timer :
  validateCronSchedule (schedule jobB) = false
  /\ outcome (start plainEngine (world_with secondInvalid))
     = Throw (InvalidSchedule "/api/crons/b" "invalid")
  /\ error_text (InvalidSchedule "/api/crons/b" "invalid")
     = "Invalid cron schedule for /api/crons/b: invalid"
  /\ tasks (runner_after (start plainEngine (world_with secondInvalid)))
     = [("/api/crons/a", 0%nat)]
  /\ is_running (world_after (start plainEngine (world_with secondInvalid))) 0 = true
  /\ is_running
       (stop (runner_after (start plainEngine (world_with secondInvalid)))
             (world_after (start plainEngine (world_with secondInvalid)))).2 0 = false.
Proof. vm_compute. repeat split; reflexivity. Qed.

(** C5, on the code: a configuration file that holds the JSON text
    [null].  The claim wants ConfigShapeError for a parsed value
    without a [crons] array.  Reading [crons] from [null] throws a
    TypeError inside [loadConfig], which passes it on because it is
    not a SyntaxError. *)
Theorem loadConfig_null_document_is_type_error :
  JSON_parse "null" = inl JNull
  /\ loadConfig plainEngine (world_with "null")
     = Throw (Uncaught "TypeError" "Cannot read properties of null (reading 'crons')")
  /\ loadConfig plainEngine (world_with "null") <> Throw ConfigShapeError.
Proof.
  split; [reflexivity |].
  assert (loadConfig plainEngine (world_with "null")
          = Throw (Uncaught "TypeError" "Cannot read properties of null (reading 'crons')"))
    as E by (vm_compute; reflexivity).
  split; [exact E |]. rewrite E. discriminate.
Qed.

(** *** Instances of the theorems *)

Lemma start_sets_totalJobs_first_witness :
  stats (runner_after (start plainEngine (world_with secondInvalid)))
  = set_totalJobs (Z.of_nat (length [jobA; jobB])) (stats plainEngine).
Proof.
  refine (proj1 (proj2 (start_sets_totalJobs_first plainEngine (world_with secondInvalid)
                          {| crons := [jobA; jobB] |} [jobA; jobB] _ _ _))).
  - vm_compute. reflexivity.
  - vm_compute. reflexivity.
  - discriminate.
Defined.

Lemma stop_idempotent_total_witness :
  is_running (stop (runner_after watching) (world_after watching)).2 2 = false.
Proof.
  refine (proj1 (proj2 (proj2 (stop_idempotent_total (runner_after watching)
                                 (world_after watching)))) 2%nat _).
  vm_compute. auto.
Defined.

Lemma dispatch_request_headers_witness :
  cronSecret (options secretEngine) = resolved_secret (Some "abc") None.
Proof.
  refine (proj1 dispatch_request_headers
            (options_for None (Some "abc") (answering [mockResponse true 200]))
            (world_with mockConfig) secretEngine _).
  vm_compute. reflexivity.
Defined.

Lemma executeOne_exact_unfiltered_witness :
  outcome (executeOne "/does/not/exist" notificationsEngine (world_with mockConfig))
  = Throw (JobNotFound "/does/not/exist")
  /\ requests (world_after (executeOne "/does/not/exist" notificationsEngine
                              (world_with mockConfig)))
     = requests (world_with mockConfig).
Proof.
  refine (proj1 (executeOne_exact_unfiltered "/does/not/exist" notificationsEngine
                   (world_with mockConfig) {| crons := [test1; test2; test3] |} _) _).
  - vm_compute. reflexivity.
  - intros j [<- | [<- | [<- | []]]]; discriminate.
Defined.

End Scenarios.

(** * The claims at the edges *)

Section EdgeCases.
Import Reference Scenario EdgeScenario.

(** C3 as stated fails for a status of the 3xx range: the answer 304
    Not Modified is a response whose [ok] is false, and its dispatch is
    a failure, counted as one.  It also fails for a thrown Error that
    has no message: the result carries the empty message of the Error,
    not Unknown error. *)
Lemma dispatch_not_modified_is_failure :
  (status_2xx_3xx (status notModified) = true
   /\ ok notModified = false
   /\ reply_result (reply_to test1 notModifiedEngine (world_with mockConfig))
      = inl notModified
   /\ success (executeCron test1 notModifiedEngine (world_with mockConfig)).1.1 = false
   /\ statusCode (executeCron test1 notModifiedEngine (world_with mockConfig)).1.1
      = Some 304
   /\ error (executeCron test1 notModifiedEngine (world_with mockConfig)).1.1 = None
   /\ failedExecutions
        (stats (executeCron test1 notModifiedEngine (world_with mockConfig)).1.2) = 1)
  /\ (reply_result (reply_to test1 blankErrorEngine (world_with mockConfig))
      = inr (ThrownError "Error" EmptyString None)
      /\ error (executeCron test1 blankErrorEngine (world_with mockConfig)).1.1
         = Some EmptyString
      /\ error (executeCron test1 blankErrorEngine (world_with mockConfig)).1.1
         <> Some "Unknown error").
Proof.
  split; [vm_compute; repeat split; reflexivity |].
  split; [reflexivity |].
  assert (error (executeCron test1 blankErrorEngine (world_with mockConfig)).1.1
          = Some EmptyString) as E by (vm_compute; reflexivity).
  split; [exact E |]. rewrite E. discriminate.
Qed.

Lemma dispatch_results_witness :
  (exists results,
     outcome (executeAll mixedEngine (world_with mockConfig)) = Ok results
     /\ length results = length [test1; test2; test3])
  /\ success (executeCron test1 notModifiedEngine (world_with mockConfig)).1.1 = false.
Proof.
  split.
  - destruct (proj1 (proj2 (proj2 (proj2 dispatch_results))) mixedEngine
                (world_with mockConfig)
                {| crons := [test1; test2; test3] |} [test1; test2; test3])
      as (results & Hout & Hlen & _).
    + vm_compute. reflexivity.
    + vm_compute. reflexivity.
    + discriminate.
    + exists results. split; assumption.
  - refine (proj1 (proj2 (proj2 (proj2 (proj2 (proj2 (proj2 dispatch_results)))
                                   test1 notModifiedEngine (world_with mockConfig)
                                   notModified _) _) _)).
    + reflexivity.
    + reflexivity.
    + vm_compute. split; discriminate.
Defined.


End EdgeCases.

(** * The wildcard reading of the filter, on the reference platform *)

Section Wildcard.
Import Reference.

Lemma append_cons c s t : String c s +:+ t = String c (s +:+ t).
Proof. reflexivity. Qed.

Lemma not_operator_not_dollar c : is_operator c = false -> Ascii.eqb c "$" = false.
Proof.
  unfold is_operator. cbn. intros Hc.
  repeat (apply orb_false_elim in Hc as [? Hc]). assumption.
Qed.

Lemma parse_items_translation p : forall pending,
  operator_free p ->
  parse_items pending (replace_stars p +:+ "$")
  = Some ((flush pending ++ glob_items p)%list, true).
Proof.
  induction p as [| c rest IH]; intros pending Hfree.
  - cbn. now rewrite app_nil_r.
  - assert (is_operator c = false) as Hc by (apply Hfree; now left).
    assert (operator_free rest) as Hrest by (intros d Hd; apply Hfree; now right).
    cbn [replace_stars glob_items]. destruct (Ascii.eqb c "*") eqn:Estar.
    + rewrite !append_cons. cbn. now rewrite (IH None Hrest).
    + rewrite append_cons. cbn [parse_items].
      rewrite Estar, (not_operator_not_dollar c Hc), Hc. cbn.
      now rewrite (IH _ Hrest).
Qed.

(** The expression compiled from the translation of a pattern. *)
Lemma compile_translation p :
  operator_free p ->
  compile ("^" +:+ replace_stars p +:+ "$")
  = inl {| from_start := true; items := glob_items p; to_end := true |}.
Proof.
  intros Hfree. unfold compile. rewrite append_cons.
  change (EmptyString +:+ (replace_stars p +:+ "$")) with (replace_stars p +:+ "$").
  now rewrite (parse_items_translation p None Hfree).
Qed.

Lemma match_here_wildcard p : forall s,
  match_here (glob_items p) true s = wildcard p s.
Proof.
  induction p as [| c rest IH]; intros s; cbn [glob_items wildcard].
  - reflexivity.
  - destruct (Ascii.eqb c "*").
    + cbn [match_here]. induction s as [| d s IHs].
      * now rewrite IH.
      * rewrite IH. f_equal. f_equal. exact IHs.
    + cbn [match_here]. destruct s as [| d s]; [reflexivity |]. now rewrite IH.
Qed.

(** For a pattern without regular-expression operators, [filterJobs]
    keeps the jobs whose whole path the wildcard pattern covers. *)
Lemma filterJobs_wildcard r jobs p :
  filter (options r) = Some p -> p <> EmptyString -> operator_free p ->
  filterJobs r jobs = Ok (List.filter (fun job => wildcard p (path job)) jobs).
Proof.
  intros Hp Hne Hfree. unfold filterJobs, str_truthy. rewrite Hp.
  apply String.eqb_neq in Hne. rewrite Hne. cbn [negb default from_option id].
  change (RegExp_new ("^" +:+ replace_stars p +:+ "$"))
    with (compile ("^" +:+ replace_stars p +:+ "$")).
  rewrite (compile_translation p Hfree). f_equal.
  apply filter_ext. intros job. apply match_here_wildcard.
Qed.

(** A dot in the pattern is not escaped and stands for any character. *)
Example unescaped_dot :
  wildcard "/api/v1.0/*" "/api/v1x0/sync" = true
  /\ wildcard "/api/v1.0/*" "/api/v1.0/sync" = true
  /\ wildcard "/api/v1.0/*" "/api/v2.0/sync" = false.
Proof. repeat split; reflexivity. Qed.
End Wildcard.

(** * The testable properties of the specification *)

Section Testable.
Import Reference Scenario.

Example constructor_resolves_options :
  new_CronRunner (options_for None (Some "abc") (answering [mockResponse true 200]))
    (world_with mockConfig) = Ok secretEngine
  /\ new_CronRunner (options_for None None (answering [])) (world_with mockConfig)
     = Ok plainEngine.
Proof. split; reflexivity. Qed.

Example constructor_rejects_base_url :
  new_CronRunner
    {| opt_baseUrl := EmptyString; opt_cronSecret := None; opt_configPath := None;
       opt_verbose := None; opt_filter := None; opt_fetch := None |}
    (world_with mockConfig) = Throw BaseUrlRequired
  /\ new_CronRunner
       {| opt_baseUrl := "invalid-url"; opt_cronSecret := None; opt_configPath := None;
          opt_verbose := None; opt_filter := None; opt_fetch := None |}
       (world_with mockConfig) = Throw InvalidBaseUrl.
Proof. split; reflexivity. Qed.

Example listJobs_with_filter :
  outcome (listJobs notificationsEngine (world_with mockConfig)) = Ok [test3]
  /\ outcome (listJobs plainEngine (world_with mockConfig)) = Ok [test1; test2; test3].
Proof. split; vm_compute; reflexivity. Qed.

Example start_registers_three_timers :
  outcome watching = Ok tt
  /\ handles (runner_after watching) = [0; 1; 2]%nat
  /\ map task_running (scheduler (world_after watching)) = [true; true; true]
  /\ map task_running (scheduler (stop (runner_after watching) (world_after watching)).2)
     = [false; false; false]
  /\ totalJobs (stats (runner_after watching)) = 3.
Proof. vm_compute. repeat split; reflexivity. Qed.

Example executeAll_mixed_outcomes :
  (map success <$> outcome_value (executeAll mixedEngine (world_with mockConfig)))
    = Some [true; false; false]
  /\ (map statusCode <$> outcome_value (executeAll mixedEngine (world_with mockConfig)))
    = Some [Some 200; Some 500; None]
  /\ (map error <$> outcome_value (executeAll mixedEngine (world_with mockConfig)))
    = Some [None; None; Some "Network error"]
  /\ getStats (runner_after (executeAll mixedEngine (world_with mockConfig)))
    = {| totalJobs := 0; successfulExecutions := 1; failedExecutions := 2;
         lastExecution := Some 1005 |}.
Proof. vm_compute. repeat split; reflexivity. Qed.

Example executeOne_by_path :
  (res_path <$> outcome_value (executeOne "/api/crons/test1" notificationsEngine
                                 (world_with mockConfig)))
    = Some "/api/crons/test1"
  /\ outcome (executeOne "/does/not/exist" notificationsEngine (world_with mockConfig))
     = Throw (JobNotFound "/does/not/exist").
Proof. vm_compute. split; reflexivity. Qed.

Example authorization_header :
  map req_headers (requests (world_after (executeOne "/api/crons/test1" secretEngine
                                            (world_with mockConfig))))
    = [[("Content-Type", "application/json"); ("Authorization", "Bearer abc")]]
  /\ map req_headers (requests (world_after (executeOne "/api/crons/test1" mixedEngine
                                               (world_with mockConfig))))
    = [[("Content-Type", "application/json")]].
Proof. vm_compute. split; reflexivity. Qed.

(** The text kept for the log at verbosity 2: the body, a note when
    the declared length is over the cap, or the failure of the read. *)
Example read_body_cases :
  read_body {| ok := true; status := 200;
               headers := Some [("content-type", "text/plain"); ("content-length", "2")];
               body_text := inl "ok" |} = inl "ok"
  /\ read_body {| ok := true; status := 200;
                  headers := Some [("content-length", "20000")];
                  body_text := inl "ok" |}
     = inl "[Response body too large: 20000 bytes, max: 10240 bytes]"
  /\ responseBody_of (engine None EmptyString (answering []))
       {| ok := true; status := 200; headers := None; body_text := inl "ok" |} = None
  /\ read_body {| ok := false; status := 500; headers := None; body_text := inl "ok" |}
     = inr (ThrownError "TypeError" "Cannot read properties of undefined (reading 'get')" None).
Proof. vm_compute. repeat split; reflexivity. Qed.

(** A pattern whose translation is not a regular expression makes the
    filter throw. *)
Example filterJobs_rejected_pattern :
  filterJobs (engine (Some "/api/(") EmptyString (answering [])) [test1; test2]
  = Throw (Uncaught "SyntaxError" "Invalid regular expression: /^/api/($/").
Proof. vm_compute. reflexivity. Qed.

Example getStats_initially :
  getStats plainEngine
  = {| totalJobs := 0; successfulExecutions := 0; failedExecutions := 0;
       lastExecution := None |}.
Proof. reflexivity. Qed.

Example loadConfig_failures :
  loadConfig plainEngine (set_files ∅ (world_with mockConfig))
    = Throw (ConfigNotFound "/tmp/test-vercel.json")
  /\ loadConfig plainEngine (world_with "invalid json")
    = Throw (ConfigParseError "/tmp/test-vercel.json" "Unexpected token in JSON")
  /\ loadConfig plainEngine (world_with (quoted "{'other': 'data'}"))
    = Throw ConfigShapeError
  /\ loadConfig plainEngine (world_with (quoted "{'crons': {'path': '/a'}}"))
    = Throw ConfigShapeError
  /\ loadConfig plainEngine (world_with "[]") = Throw ConfigShapeError
  /\ loadConfig plainEngine (world_with mockConfig)
    = Ok {| crons := [test1; test2; test3] |}.
Proof. vm_compute. repeat split; reflexivity. Qed.

(** The file is read again by [executeAll] and not by [listJobs]. *)
Example edits_between_calls :
  let first := executeAll mixedEngine (world_with mockConfig) in
  let edited := set_files {[ mockConfigPath := secondInvalid ]} (world_after first) in
  (map res_path <$> outcome_value (executeAll (runner_after first) edited))
    = Some ["/api/crons/a"; "/api/crons/b"]
  /\ outcome (listJobs (runner_after first) edited) = Ok [test1; test2; test3].
Proof. vm_compute. split; reflexivity. Qed.
End Testable.

(** * Further properties of the runner *)

Section Accounting.
Context `{Platform}.

(** A dispatch moves the counter its result names. *)
Lemma executeCron_counts_by_result job r w :
  successfulExecutions (stats (executeCron job r w).1.2)
  = successfulExecutions (stats r) + (if success (executeCron job r w).1.1 then 1 else 0)
  /\ failedExecutions (stats (executeCron job r w).1.2)
     = failedExecutions (stats r) + (if success (executeCron job r w).1.1 then 0 else 1)
  /\ totalJobs (stats (executeCron job r w).1.2) = totalJobs (stats r).
Proof.
  unfold executeCron.
  destruct (reply_result _) as [response | thrown]; [destruct (ok response) eqn:Hok |];
    cbn; rewrite ?Hok; repeat split; lia.
Qed.

Lemma succeeded_cons res results :
  succeeded (res :: results) = (if success res then 1 else 0) + succeeded results.
Proof. unfold succeeded. cbn. destruct (success res); cbn; lia. Qed.

Lemma failed_cons res results :
  failed (res :: results) = (if success res then 0 else 1) + failed results.
Proof. unfold failed. cbn. destruct (success res); cbn; lia. Qed.

Lemma executeAll_loop_accounting jobs : forall acc r w,
  exists results,
    outcome (executeAll_loop jobs acc r w) = Ok (acc ++ results)%list
    /\ length results = length jobs
    /\ successfulExecutions (stats (runner_after (executeAll_loop jobs acc r w)))
       = successfulExecutions (stats r) + succeeded results
    /\ failedExecutions (stats (runner_after (executeAll_loop jobs acc r w)))
       = failedExecutions (stats r) + failed results
    /\ totalJobs (stats (runner_after (executeAll_loop jobs acc r w))) = totalJobs (stats r)
    /\ requests (world_after (executeAll_loop jobs acc r w))
       = (requests w ++ map (fun job => request_for job r) jobs)%list
    /\ tasks (runner_after (executeAll_loop jobs acc r w)) = tasks r
    /\ scheduler (world_after (executeAll_loop jobs acc r w)) = scheduler w
    /\ files (world_after (executeAll_loop jobs acc r w)) = files w.
Proof.
  induction jobs as [| job rest IH]; intros acc r w.
  - exists []. cbn. rewrite !app_nil_r. repeat split; try reflexivity; unfold succeeded, failed; cbn; lia.
  - cbn [executeAll_loop]. unfold bind, total.
    pose proof (executeCron_runner_frame job r w) as (Hopt & Htasks & _).
    pose proof (executeCron_world_frame job r w) as (Hreq & Hfiles & Hsched & _).
    pose proof (executeCron_counts_by_result job r w) as (Hs & Hf & Ht).
    destruct (executeCron job r w) as [[res r1] w1].
    cbn in Hopt, Htasks, Hreq, Hfiles, Hsched, Hs, Hf, Ht.
    destruct (IH (acc ++ [res])%list r1 w1)
      as (results & Hout & Hlen & Hs' & Hf' & Ht' & Hreq' & Htasks' & Hsched' & Hfiles').
    exists (res :: results).
    rewrite Hout, Hs', Hf', Ht', Hreq', Htasks', Hsched', Hfiles'.
    rewrite succeeded_cons, failed_cons, Hs, Hf, Ht, Hreq, Htasks, Hsched, Hfiles.
    repeat split; try reflexivity; try lia.
    + now rewrite <- app_assoc.
    + cbn. now rewrite Hlen.
    + rewrite <- app_assoc. cbn. f_equal. f_equal.
      apply map_ext. intros j. now apply request_for_options.
Qed.

(** X1. [executeAll] on a configuration that loads and leaves jobs after
    the filter: it returns one result per job, adds the number of
    successful results to [successfulExecutions] and the number of
    failed ones to [failedExecutions], leaves [totalJobs] as it was,
    sends exactly one request per job in the order of the list, and
    touches neither the timers nor the files. *)
Theorem executeAll_accounting r w cfg jobs :
  loadConfig r w = Ok cfg ->
  filterJobs r (crons cfg) = Ok jobs ->
  jobs <> [] ->
  exists results,
    outcome (executeAll r w) = Ok results
    /\ length results = length jobs
    /\ successfulExecutions (stats (runner_after (executeAll r w)))
       = successfulExecutions (stats r) + succeeded results
    /\ failedExecutions (stats (runner_after (executeAll r w)))
       = failedExecutions (stats r) + failed results
    /\ totalJobs (stats (runner_after (executeAll r w))) = totalJobs (stats r)
    /\ requests (world_after (executeAll r w))
       = (requests w ++ map (fun job => request_for job r) jobs)%list
    /\ tasks (runner_after (executeAll r w)) = tasks r
    /\ scheduler (world_after (executeAll r w)) = scheduler w
    /\ files (world_after (executeAll r w)) = files w.
Proof.
  intros Hload Hfilter Hjobs.
  rewrite (executeAll_after_load r w cfg jobs Hload Hfilter Hjobs).
  match goal with |- context [executeAll_loop jobs [] ?r1 ?w1] =>
    destruct (executeAll_loop_accounting jobs [] r1 w1)
      as (results & Hout & Hlen & Hs & Hf & Ht & Hreq & Htasks & Hsched & Hfiles)
  end.
  exists results. rewrite Hout, Hs, Hf, Ht, Hreq, Htasks, Hsched, Hfiles. frame.
  repeat split; try reflexivity. exact Hlen.
Qed.
End Accounting.

Section Failures.
Context `{Platform}.

(** X2. When the configuration cannot be loaded, [start], [executeAll]
    and [executeOne] throw the error of the load and leave the runner
    and the world exactly as they were: no counter, timer, kept
    configuration, request or console line changes.  [listJobs] does
    the same when it has no configuration to reuse. *)
Theorem failed_load_changes_nothing r w e :
  loadConfig r w = Throw e ->
  start r w = (Throw e, r, w)
  /\ executeAll r w = (Throw e, r, w)
  /\ (forall p, executeOne p r w = (Throw e, r, w))
  /\ (config r = None -> listJobs r w = (Throw e, r, w)).
Proof.
  intros Hload. unfold start, executeAll, executeOne, listJobs, bind, attempt.
  rewrite Hload. repeat split; try reflexivity. now intros ->.
Qed.

(** X3. When the filter leaves no job, [start] and [executeAll] throw
    NoMatchingJobs after keeping the configuration they loaded.
    Nothing else changes: [totalJobs] keeps its earlier value, no timer
    is created, no request is sent and nothing is logged. *)
Theorem no_matching_jobs_changes_only_config r w cfg :
  loadConfig r w = Ok cfg ->
  filterJobs r (crons cfg) = Ok [] ->
  start r w = (Throw NoMatchingJobs, set_config (Some cfg) r, w)
  /\ executeAll r w = (Throw NoMatchingJobs, set_config (Some cfg) r, w).
Proof.
  intros Hload Hfilter. unfold start, executeAll, bind, attempt, update_runner.
  rewrite Hload. cbn.
  rewrite (filterJobs_options r (set_config (Some cfg) r)) by reflexivity.
  rewrite Hfilter. split; reflexivity.
Qed.

Lemma start_loop_requests jobs : forall r w,
  requests (world_after (start_loop jobs r w)) = requests w
  /\ files (world_after (start_loop jobs r w)) = files w.
Proof.
  induction jobs as [| job rest IH]; intros r w; cbn [start_loop].
  - split; reflexivity.
  - destruct (negb _); [split; reflexivity |]. cbn.
    match goal with |- context [start_loop rest ?r1 ?w1] =>
      destruct (IH r1 w1) as [-> ->]
    end.
    now frame.
Qed.

(** X4. [start] dispatches nothing, however it ends: the execution
    counters and [lastExecution] are those before the call, no request
    is sent, the files are untouched and the timers that existed
    before the call are still there, in the same state. *)
Theorem start_never_dispatches r w :
  successfulExecutions (stats (runner_after (start r w))) = successfulExecutions (stats r)
  /\ failedExecutions (stats (runner_after (start r w))) = failedExecutions (stats r)
  /\ lastExecution (stats (runner_after (start r w))) = lastExecution (stats r)
  /\ requests (world_after (start r w)) = requests w
  /\ files (world_after (start r w)) = files w
  /\ (forall task t, scheduler w !! task = Some t ->
        scheduler (world_after (start r w)) !! task = Some t).
Proof.
  unfold start, bind, attempt, update_runner.
  destruct (loadConfig r w) as [cfg | e]; [| repeat split; auto]. cbn.
  destruct (filterJobs _ _) as [jobs | e]; [| repeat split; auto].
  destruct (length jobs =? 0)%nat; [repeat split; auto |]. cbn.
  match goal with |- context [start_loop jobs ?r1 ?w1] =>
    pose proof (start_loop_runner_frame jobs r1 w1) as (Hstats & _);
    pose proof (start_loop_requests jobs r1 w1) as (Hreq & Hfiles);
    pose proof (start_loop_scheduler jobs r1 w1) as Hsched;
    destruct (start_loop jobs r1 w1) as [[[[] | e] r2] w2]
  end; cbn in Hstats, Hreq, Hfiles, Hsched |- *; rewrite Hstats; frame;
    autorewrite with frame in Hreq, Hfiles, Hsched; rewrite ?Hreq, ?Hfiles, ?Hsched;
    (repeat split; try reflexivity);
    intros task t Ht; now apply lookup_app_l_Some.
Qed.

Lemma valid_prefix_all jobs :
  first_invalid jobs = None -> valid_prefix jobs = jobs.
Proof.
  unfold first_invalid. induction jobs as [| job rest IH]; cbn; [reflexivity |].
  destruct (validateCronSchedule (schedule job)); cbn; [| discriminate].
  intros Hrest. now rewrite IH.
Qed.

(** The timers after a [start] whose jobs all have valid schedules. *)
Lemma start_scheduler_all_valid r w cfg jobs :
  loadConfig r w = Ok cfg ->
  filterJobs r (crons cfg) = Ok jobs ->
  jobs <> [] ->
  first_invalid jobs = None ->
  scheduler (world_after (start r w)) = (scheduler w ++ map timer_for jobs)%list.
Proof.
  intros Hload Hfilter Hjobs Hvalid.
  rewrite (start_after_load r w cfg jobs Hload Hfilter Hjobs). unfold bind.
  match goal with |- context [start_loop jobs ?r1 ?w1] =>
    pose proof (start_loop_scheduler jobs r1 w1) as Hsched;
    destruct (start_loop jobs r1 w1) as [[[[] | e] r2] w2]
  end; rewrite (valid_prefix_all jobs Hvalid) in Hsched; cbn in Hsched |- *;
    autorewrite with frame in Hsched |- *; cbn; exact Hsched.
Qed.

(** X5. When every filtered job has a valid schedule, [start] returns
    normally and has created exactly one running timer per job, in the
    order of the list and after the timers that existed; [totalJobs] is
    the number of jobs, and every path of the list is a key of the
    Active Timer Set. *)
Theorem start_registers_every_job r w cfg jobs :
  loadConfig r w = Ok cfg ->
  filterJobs r (crons cfg) = Ok jobs ->
  jobs <> [] ->
  first_invalid jobs = None ->
  outcome (start r w) = Ok tt
  /\ scheduler (world_after (start r w)) = (scheduler w ++ map timer_for jobs)%list
  /\ totalJobs (stats (runner_after (start r w))) = Z.of_nat (length jobs)
  /\ (forall job, In job jobs ->
        In (path job) (map fst (tasks (runner_after (start r w))))).
Proof.
  intros Hload Hfilter Hjobs Hvalid.
  rewrite (start_after_load r w cfg jobs Hload Hfilter Hjobs). unfold bind.
  match goal with |- context [start_loop jobs ?r1 ?w1] =>
    pose proof (start_loop_runner_frame jobs r1 w1) as (Hstats & _);
    pose proof (start_loop_outcome jobs r1 w1) as Hout;
    pose proof (start_loop_scheduler jobs r1 w1) as Hsched;
    pose proof (start_loop_keys jobs r1 w1) as Hkeys;
    destruct (start_loop jobs r1 w1) as [[o r2] w2]
  end.
  rewrite Hvalid in Hout. rewrite (valid_prefix_all jobs Hvalid) in Hsched, Hkeys.
  cbn in Hout, Hstats, Hsched, Hkeys. subst o. cbn. frame.
  autorewrite with frame in Hsched. rewrite Hstats, Hsched.
  repeat split; try reflexivity.
  intros job Hin. apply Hkeys. left. now apply in_map.
Qed.
End Failures.

Section Watching.
Context `{Platform}.

Lemma Map_set_fresh key task m :
  ~ In key (map fst m) -> Map_set key task m = (m ++ [(key, task)])%list.
Proof.
  induction m as [| [k t] rest IH]; cbn; [reflexivity |].
  intros Hfresh. destruct (String.eqb k key) eqn:E.
  - apply String.eqb_eq in E. destruct Hfresh. now left.
  - rewrite IH; [reflexivity |]. intros Hin. apply Hfresh. now right.
Qed.

Lemma Map_set_NoDup key task m :
  List.NoDup (map fst m) -> List.NoDup (map fst (Map_set key task m)).
Proof.
  induction m as [| [k t] rest IH]; cbn; intros Hm.
  - apply List.NoDup_cons; [intros [] | apply List.NoDup_nil].
  - destruct (String.eqb k key) eqn:E; cbn; [exact Hm |].
    apply List.NoDup_cons_iff in Hm as [Hk Hrest]. apply List.NoDup_cons; [| now apply IH].
    rewrite Map_set_keys. intros [-> | Hin]; [| contradiction].
    now rewrite String.eqb_refl in E.
Qed.

Lemma start_loop_NoDup jobs : forall r w,
  List.NoDup (map fst (tasks r)) ->
  List.NoDup (map fst (tasks (runner_after (start_loop jobs r w)))).
Proof.
  induction jobs as [| job rest IH]; intros r w Hr; cbn [start_loop].
  - exact Hr.
  - destruct (negb _); [exact Hr |]. cbn. apply IH. cbn. now apply Map_set_NoDup.
Qed.

Lemma map_snd_combine {A B} (l : list A) (l' : list B) :
  length l = length l' -> map snd (combine l l') = l'.
Proof.
  revert l'. induction l as [| a l IH]; intros [| b l']; cbn; try discriminate; auto.
  intros [= Hlen]. now rewrite IH.
Qed.

(** From an empty set and with distinct paths, the loop of [start]
    files the handles in the order it creates the tasks. *)
Lemma start_loop_tasks_distinct jobs : forall r w,
  List.NoDup (map path jobs) ->
  (forall job, In job jobs -> ~ In (path job) (map fst (tasks r))) ->
  first_invalid jobs = None ->
  tasks (runner_after (start_loop jobs r w))
  = (tasks r ++ combine (map path jobs) (seq (length (scheduler w)) (length jobs)))%list.
Proof.
  unfold first_invalid.
  induction jobs as [| job rest IH]; intros r w Hdistinct Hfresh Hvalid; cbn [start_loop].
  - cbn. now rewrite app_nil_r.
  - cbn in Hvalid. destruct (negb (validateCronSchedule (schedule job))); [discriminate |].
    cbn in Hdistinct. apply List.NoDup_cons_iff in Hdistinct as [Hjob Hrest].
    cbn. rewrite IH; [| exact Hrest | | exact Hvalid].
    + cbn. rewrite (Map_set_fresh (path job)) by (apply Hfresh; now left).
      frame. rewrite length_app, <- app_assoc. cbn. now rewrite Nat.add_1_r.
    + intros j Hj. cbn. rewrite Map_set_keys. intros [Heq | Hin].
      * apply Hjob. rewrite <- Heq. now apply in_map.
      * apply (Hfresh j); [now right | exact Hin].
Qed.

Lemma stop_is_running r w task :
  is_running (stop r w).2 task
  = is_running w task && negb (existsb (Nat.eqb task) (handles r)).
Proof.
  unfold stop, handles. cbn.
  now rewrite log_is_running, stop_loop_is_running, log_is_running.
Qed.

(** X6. From an idle runner, when the filtered jobs have valid schedules
    and pairwise different paths, [start] keeps the handles of the
    timers it created, in order, and a following [stop] leaves none of
    them running and the Active Timer Set empty. *)
Theorem start_then_stop_stops_every_timer r w cfg jobs :
  loadConfig r w = Ok cfg ->
  filterJobs r (crons cfg) = Ok jobs ->
  jobs <> [] ->
  first_invalid jobs = None ->
  List.NoDup (map path jobs) ->
  tasks r = [] ->
  handles (runner_after (start r w)) = seq (length (scheduler w)) (length jobs)
  /\ tasks (stop (runner_after (start r w)) (world_after (start r w))).1 = []
  /\ (forall task, (length (scheduler w) <= task)%nat ->
        is_running (stop (runner_after (start r w)) (world_after (start r w))).2 task
        = false).
Proof.
  intros Hload Hfilter Hjobs Hvalid Hdistinct Hidle.
  pose proof (start_scheduler_all_valid r w cfg jobs Hload Hfilter Hjobs Hvalid) as Hsched.
  assert (handles (runner_after (start r w)) = seq (length (scheduler w)) (length jobs))
    as Hhandles.
  { rewrite (start_after_load r w cfg jobs Hload Hfilter Hjobs). unfold bind, handles.
    match goal with |- context [start_loop jobs ?r1 ?w1] =>
      pose proof (start_loop_tasks_distinct jobs r1 w1 Hdistinct) as Htasks;
      destruct (start_loop jobs r1 w1) as [[[[] | e] r2] w2]
    end; cbn in Htasks |- *; rewrite Hidle in Htasks;
      (rewrite Htasks; [| intros j _ [] | exact Hvalid]);
      autorewrite with frame; cbn; apply map_snd_combine;
      now rewrite length_map, length_seq. }
  split; [exact Hhandles |]. split; [reflexivity |].
  intros task Hge. rewrite stop_is_running, Hhandles.
  destruct (Nat.ltb task (length (scheduler w) + length jobs)) eqn:Hlt.
  - apply Nat.ltb_lt in Hlt.
    replace (existsb (Nat.eqb task) (seq (length (scheduler w)) (length jobs))) with true.
    + apply andb_false_r.
    + symmetry. apply existsb_exists. exists task. split; [| apply Nat.eqb_refl].
      apply List.in_seq. lia.
  - apply Nat.ltb_ge in Hlt. unfold is_running. rewrite Hsched.
    rewrite lookup_ge_None_2; [reflexivity |]. rewrite length_app, length_map. lia.
Qed.

(** X7. From an idle runner, when two of the filtered jobs share a path,
    [start] creates a timer for each of them and keeps one handle for
    the path, so a following [stop] leaves a timer of this [start]
    running. *)
Theorem shared_path_leaves_a_timer_running r w cfg jobs :
  loadConfig r w = Ok cfg ->
  filterJobs r (crons cfg) = Ok jobs ->
  first_invalid jobs = None ->
  ~ List.NoDup (map path jobs) ->
  tasks r = [] ->
  exists task,
    (length (scheduler w) <= task < length (scheduler w) + length jobs)%nat
    /\ is_running (stop (runner_after (start r w)) (world_after (start r w))).2 task = true.
Proof.
  intros Hload Hfilter Hvalid Hshared Hidle.
  assert (jobs <> []) as Hjobs by (intros ->; apply Hshared; apply List.NoDup_nil).
  pose proof (start_scheduler_all_valid r w cfg jobs Hload Hfilter Hjobs Hvalid) as Hsched.
  set (kept := runner_after (start r w)) in *.
  assert (List.NoDup (map fst (tasks kept)) /\ incl (map fst (tasks kept)) (map path jobs))
    as [Hkeys Hincl].
  { subst kept. rewrite (start_after_load r w cfg jobs Hload Hfilter Hjobs). unfold bind.
    match goal with |- context [start_loop jobs ?r1 ?w1] =>
      pose proof (start_loop_NoDup jobs r1 w1) as Hnd;
      pose proof (start_loop_keys jobs r1 w1) as Hk;
      destruct (start_loop jobs r1 w1) as [[[[] | e] r2] w2]
    end; cbn in Hnd, Hk |- *; rewrite Hidle in Hnd, Hk;
      rewrite (valid_prefix_all jobs Hvalid) in Hk;
      (split; [apply Hnd; apply List.NoDup_nil | intros key Hkey; apply Hk in Hkey as [? | []]; auto]). }
  assert (length (handles kept) < length jobs)%nat as Hfewer.
  { unfold handles. rewrite length_map, <- (length_map fst (tasks kept)).
    rewrite <- (length_map path jobs).
    destruct (Nat.lt_ge_cases (length (map fst (tasks kept))) (length (map path jobs)))
      as [Hlt | Hge]; [exact Hlt |].
    destruct Hshared. eapply List.NoDup_incl_NoDup; eassumption. }
  assert (~ Forall (fun task => In task (handles kept))
            (seq (length (scheduler w)) (length jobs))) as Hmissing.
  { intros Hall.
    pose proof (proj1 (List.Forall_forall _ _) Hall) as Hsub.
    pose proof (List.seq_NoDup (length jobs) (length (scheduler w))) as Hseq.
    pose proof (List.NoDup_incl_length Hseq Hsub) as Hle.
    rewrite length_seq in Hle. lia. }
  apply List.neg_Forall_Exists_neg in Hmissing; [| intros task; apply in_dec, Nat.eq_dec].
  apply List.Exists_exists in Hmissing as (task & Hin & Hout).
  apply List.in_seq in Hin. exists task. split; [exact Hin |].
  rewrite stop_is_running. fold kept. apply andb_true_intro. split.
  - unfold is_running. rewrite Hsched, lookup_app_r by lia.
    destruct (lookup_lt_is_Some_2 (map timer_for jobs) (task - length (scheduler w)))
      as [t Ht]; [rewrite length_map; lia |].
    rewrite Ht. apply list_lookup_fmap_Some in Ht as (job & -> & _). reflexivity.
  - apply negb_true_iff, not_true_is_false. intros Hex.
    apply existsb_exists in Hex as (h & Hh & Heq). apply Nat.eqb_eq in Heq as ->.
    contradiction.
Qed.

(** X8. A timer that fires while it is running makes one dispatch of its
    job: one request to the job's address, one more execution counted,
    nothing changed in the Active Timer Set, the scheduler or the kept
    configuration.  A timer that is stopped, or a handle that names no
    timer, does nothing. *)
Theorem task_fires_dispatches_once task r w :
  (forall t, scheduler w !! task = Some t -> task_running t = true ->
     requests (task_fires task r w).2 = (requests w ++ [request_for (task_job t) r])%list
     /\ successfulExecutions (stats (task_fires task r w).1)
        + failedExecutions (stats (task_fires task r w).1)
        = successfulExecutions (stats r) + failedExecutions (stats r) + 1
     /\ tasks (task_fires task r w).1 = tasks r
     /\ config (task_fires task r w).1 = config r
     /\ scheduler (task_fires task r w).2 = scheduler w)
  /\ (is_running w task = false -> task_fires task r w = (r, w)).
Proof.
  split; [| apply stopped_task_does_not_fire].
  intros t Ht Hrun. unfold task_fires. rewrite Ht, Hrun.
  pose proof (executeCron_runner_frame (task_job t) r w) as (_ & Htasks & Hcfg).
  pose proof (executeCron_world_frame (task_job t) r w) as (Hreq & _ & Hsched & _).
  pose proof (executeCron_counts_by_result (task_job t) r w) as (Hs & Hf & _).
  destruct (executeCron (task_job t) r w) as [[res r1] w1].
  cbn in Htasks, Hcfg, Hreq, Hsched, Hs, Hf |- *.
  repeat split; auto. rewrite Hs, Hf. destruct (success res); lia.
Qed.

(** X9. After [stop], the timers that were in the Active Timer Set make
    no further dispatch: firing any of them changes nothing. *)
Theorem stopped_timers_stay_silent r w task :
  In task (handles r) ->
  task_fires task (stop r w).1 (stop r w).2 = ((stop r w).1, (stop r w).2).
Proof.
  intros Hin. apply stopped_task_does_not_fire. rewrite stop_is_running.
  replace (existsb (Nat.eqb task) (handles r)) with true; [apply andb_false_r |].
  symmetry. apply existsb_exists. exists task. split; [exact Hin | apply Nat.eqb_refl].
Qed.

(** X10. Once [listJobs] has returned a list, every later [listJobs] on
    that runner returns the same list without reading the file,
    whatever the file has become; [listJobs] never changes the world. *)
Theorem listJobs_repeats r w jobs :
  outcome (listJobs r w) = Ok jobs ->
  world_after (listJobs r w) = w
  /\ forall w', listJobs (runner_after (listJobs r w)) w'
                = (Ok jobs, runner_after (listJobs r w), w').
Proof.
  unfold listJobs, bind, attempt, update_runner.
  destruct (config r) as [present |] eqn:Hcfg.
  - cbn. intros Hjobs. split; [reflexivity |]. intros w'. now rewrite Hcfg, Hjobs.
  - destruct (loadConfig r w) as [cfg | e]; [| discriminate]. cbn.
    rewrite (filterJobs_options r (set_config (Some cfg) r)) by reflexivity.
    intros Hjobs. split; [reflexivity |]. intros w'. cbn in Hjobs |- *.
    now rewrite Hjobs.
Qed.

(** X11. The constructor succeeds exactly when the base URL is not empty
    and parses as a URL.  The runner it returns is idle, with all
    counters at zero and no configuration kept; an absent or empty
    configuration path stands for ./vercel.json and an absent verbosity
    for 0. *)
Theorem constructor_checks_base_url o w :
  ((exists r, new_CronRunner o w = Ok r)
   <-> opt_baseUrl o <> EmptyString /\ URL_parses (opt_baseUrl o) = true)
  /\ (opt_baseUrl o = EmptyString -> new_CronRunner o w = Throw BaseUrlRequired)
  /\ (forall r, new_CronRunner o w = Ok r ->
        tasks r = []
        /\ getStats r = {| totalJobs := 0; successfulExecutions := 0;
                           failedExecutions := 0; lastExecution := None |}
        /\ config r = None
        /\ baseUrl (options r) = opt_baseUrl o
        /\ filter (options r) = opt_filter o
        /\ verbose (options r) = default 0 (opt_verbose o)
        /\ configPath (options r)
           = (if str_truthy (opt_configPath o)
              then default EmptyString (opt_configPath o) else "./vercel.json")).
Proof.
  unfold new_CronRunner, validateOptions, str_truthy. cbn.
  destruct (String.eqb (opt_baseUrl o) EmptyString) eqn:Hempty; cbn.
  - apply String.eqb_eq in Hempty. split; [| split].
    + split; [intros [r Hr]; discriminate | intros [Hne _]; contradiction].
    + reflexivity.
    + discriminate.
  - apply String.eqb_neq in Hempty.
    destruct (URL_parses (opt_baseUrl o)) eqn:Hurl; cbn.
    + split; [| split].
      * split; [intros _; auto | intros _; eauto].
      * contradiction.
      * intros r [= <-]. cbn. repeat split.
        unfold str_or, str_truthy.
        destruct (opt_configPath o) as [p |]; [| reflexivity].
        destruct (String.eqb p EmptyString); reflexivity.
    + split; [| split].
      * split; [intros [r Hr]; discriminate | intros [_ Hfalse]; discriminate].
      * contradiction.
      * discriminate.
Qed.
End Watching.

Section Logging.
Context `{Platform}.

Lemma log_quiet message r w :
  verbose (options r) = 0 -> log message false r w = w.
Proof. unfold log. now intros ->. Qed.

Lemma log_error_line message r w :
  console (log message true r w)
  = (console w ++ [{| log_time := clock w; log_isError := true;
                      log_message := message |}])%list.
Proof. unfold log. now rewrite andb_false_r. Qed.

Lemma executeCron_quiet job r w :
  verbose (options r) = 0 ->
  exists lines,
    console (executeCron job r w).2 = (console w ++ lines)%list
    /\ List.Forall (fun line => log_isError line = true) lines
    /\ Z.of_nat (length lines) = (if success (executeCron job r w).1.1 then 0 else 1).
Proof.
  intros Hquiet. unfold executeCron, log_body.
  rewrite (log_quiet _ r w Hquiet).
  destruct (reply_result _) as [response | thrown]; [destruct (ok response) eqn:Hok |];
    cbn; rewrite ?Hquiet, ?Hok; cbn.
  - rewrite log_quiet by exact Hquiet. exists []. cbn. rewrite app_nil_r. auto.
  - rewrite log_error_line. eexists [_]. cbn. repeat split; auto.
  - rewrite log_error_line. eexists [_]. cbn. repeat split; auto.
Qed.

Lemma executeAll_loop_quiet jobs : forall acc r w,
  verbose (options r) = 0 ->
  exists results lines,
    outcome (executeAll_loop jobs acc r w) = Ok (acc ++ results)%list
    /\ console (world_after (executeAll_loop jobs acc r w)) = (console w ++ lines)%list
    /\ List.Forall (fun line => log_isError line = true) lines
    /\ Z.of_nat (length lines) = failed results.
Proof.
  induction jobs as [| job rest IH]; intros acc r w Hquiet.
  - exists [], []. cbn. rewrite !app_nil_r. repeat split; auto.
  - cbn [executeAll_loop]. unfold bind, total.
    pose proof (executeCron_runner_frame job r w) as (Hopt & _).
    destruct (executeCron_quiet job r w Hquiet) as (first & Hconsole & Herr & Hcount).
    destruct (executeCron job r w) as [[res r1] w1]. cbn in Hopt, Hconsole, Hcount.
    destruct (IH (acc ++ [res])%list r1 w1) as (results & lines & Hout & Hc & He & Hn);
      [now rewrite Hopt |].
    exists (res :: results), (first ++ lines)%list.
    rewrite Hout, Hc, Hconsole, failed_cons, length_app, <- !app_assoc.
    repeat split; auto.
    + now apply List.Forall_app.
    + destruct (success res); lia.
Qed.

Lemma start_loop_quiet jobs : forall r w,
  verbose (options r) = 0 ->
  console (world_after (start_loop jobs r w)) = console w.
Proof.
  induction jobs as [| job rest IH]; intros r w Hquiet; cbn [start_loop].
  - reflexivity.
  - destruct (negb _); [reflexivity |]. cbn. rewrite IH by exact Hquiet.
    now rewrite log_quiet.
Qed.

Lemma stop_loop_quiet entries : forall r w,
  verbose (options r) = 0 -> console (stop_loop entries r w) = console w.
Proof.
  unfold stop_loop.
  induction entries as [| [key task] rest IH]; intros r w Hquiet; [reflexivity |].
  rewrite IH by exact Hquiet. now rewrite log_quiet.
Qed.

(** X12. At verbosity 0 the runner writes error lines only.  [start],
    [stop] and [listJobs] write nothing.  A dispatch writes nothing when
    it succeeds and exactly one error line when it fails, so
    [executeAll] adds one error line per failed result, and
    [executeOne] at most one. *)
Theorem quiet_at_verbosity_zero r w :
  verbose (options r) = 0 ->
  console (world_after (start r w)) = console w
  /\ console (stop r w).2 = console w
  /\ console (world_after (listJobs r w)) = console w
  /\ (exists lines,
        console (world_after (executeAll r w)) = (console w ++ lines)%list
        /\ List.Forall (fun line => log_isError line = true) lines
        /\ forall results, outcome (executeAll r w) = Ok results ->
             Z.of_nat (length lines) = failed results)
  /\ (forall p, exists lines,
        console (world_after (executeOne p r w)) = (console w ++ lines)%list
        /\ List.Forall (fun line => log_isError line = true) lines
        /\ forall result, outcome (executeOne p r w) = Ok result ->
             Z.of_nat (length lines) = (if success result then 0 else 1)).
Proof.
  intros Hquiet. split; [| split; [| split; [| split]]].
  - unfold start, bind, attempt, update_runner, say.
    destruct (loadConfig r w) as [cfg | e]; [| reflexivity]. cbn.
    destruct (filterJobs _ _) as [jobs | e]; [| reflexivity].
    destruct (length jobs =? 0)%nat; [reflexivity |]. cbn.
    rewrite (log_quiet _ _ w) by exact Hquiet.
    match goal with |- context [start_loop jobs ?r1 ?w1] =>
      pose proof (start_loop_quiet jobs r1 w1 Hquiet) as Hloop;
      pose proof (start_loop_runner_frame jobs r1 w1) as (_ & Hopt & _);
      destruct (start_loop jobs r1 w1) as [[[[] | e] r2] w2]
    end; cbn in Hloop, Hopt |- *; [| exact Hloop].
    rewrite log_quiet; [exact Hloop | now rewrite Hopt].
  - unfold stop. cbn. rewrite (log_quiet _ r w Hquiet), log_quiet by exact Hquiet.
    now apply stop_loop_quiet.
  - unfold listJobs, bind, attempt, update_runner.
    destruct (config r); [reflexivity |].
    destruct (loadConfig r w); reflexivity.
  - unfold executeAll, bind, attempt, update_runner, say.
    destruct (loadConfig r w) as [cfg | e];
      [| exists []; cbn; rewrite app_nil_r; repeat split; auto; discriminate]. cbn.
    destruct (filterJobs _ _) as [jobs | e];
      [| exists []; cbn; rewrite app_nil_r; repeat split; auto; discriminate].
    destruct (length jobs =? 0)%nat;
      [exists []; cbn; rewrite app_nil_r; repeat split; auto; discriminate |]. cbn.
    rewrite (log_quiet _ _ w) by exact Hquiet.
    destruct (executeAll_loop_quiet jobs [] (set_config (Some cfg) r) w Hquiet)
      as (results & lines & Hout & Hc & He & Hn).
    exists lines. split; [exact Hc |]. split; [exact He |].
    intros results' Hres. rewrite Hout in Hres. injection Hres as <-. exact Hn.
  - intros p. unfold executeOne, bind, attempt, update_runner, total.
    destruct (loadConfig r w) as [cfg | e];
      [| exists []; cbn; rewrite app_nil_r; repeat split; auto; discriminate]. cbn.
    destruct (List.find _ _) as [job |];
      [| exists []; cbn; rewrite app_nil_r; repeat split; auto; discriminate].
    destruct (executeCron_quiet job (set_config (Some cfg) r) w Hquiet)
      as (lines & Hc & He & Hn).
    destruct (executeCron job (set_config (Some cfg) r) w) as [[res r1] w1].
    cbn in Hc, Hn |- *. exists lines. split; [exact Hc |]. split; [exact He |].
    now intros result [= <-].
Qed.

Lemma substring0_length n s :
  (n <= String.length s)%nat -> String.length (substring0 n s) = n.
Proof.
  revert s. induction n as [| n IH]; intros s Hn; [reflexivity |].
  destruct s as [| c s]; cbn in Hn |- *; [lia |]. rewrite IH; lia.
Qed.

Lemma headers_get_present name hs :
  exists value, headers_get name (Some hs) = inl value.
Proof. unfold headers_get. destruct (header_values name hs); eauto. Qed.

(** The inner [try] once both headers are read: the declared length
    decides whether the body is read at all. *)
Lemma read_body_with_headers response hs declared :
  headers response = Some hs ->
  headers_get "content-length" (headers response) = inl declared ->
  read_body response
  = if negb (str_truthy declared)
       || match parseInt10 (default EmptyString declared) with
          | Some n => n <=? maxBodySize
          | None => false
          end
    then
      match body_text response with
      | inr e => inr e
      | inl text =>
          if Z.of_nat (String.length text) <=? maxBodySize then inl text
          else
            inl (substring0 (Z.to_nat maxBodySize) text
                 +:+ "... [truncated, total length: "
                 +:+ num_to_string (Z.of_nat (String.length text)) +:+ "]")
      end
    else
      inl ("[Response body too large: " +:+ default EmptyString declared
           +:+ " bytes, max: " +:+ num_to_string maxBodySize +:+ " bytes]").
Proof.
  intros Hhs Hdeclared. unfold read_body. rewrite Hdeclared, Hhs.
  destruct (headers_get_present "content-type" hs) as [value ->]. reflexivity.
Qed.

(** X13. What the body capture keeps of a response.  Below verbosity
    2 nothing is captured.  From verbosity 2 on: when the response has
    no headers object, or reading the body fails, a note that the body
    could not be read, with the message of the failure; when the
    content-length header is absent, empty or a number of at most
    10240 ([maxBodySize]), the body is read, and the capture is the
    whole text when it has at most 10240 characters, and its first
    10240 characters followed by a note of the full length when it has
    more; when the header is not empty and is not a number of at most
    10240, a note that the body is too large, whatever the body is. *)
Theorem logged_body_is_capped r response :
  (forall out, read_body response = inl out ->
     (exists text, body_text response = inl text
        /\ Z.of_nat (String.length text) <= maxBodySize /\ out = text)
     \/ (exists text, body_text response = inl text
        /\ maxBodySize < Z.of_nat (String.length text)
        /\ Z.of_nat (String.length (substring0 (Z.to_nat maxBodySize) text)) = maxBodySize
        /\ out = substring0 (Z.to_nat maxBodySize) text +:+ "... [truncated, total length: "
                 +:+ num_to_string (Z.of_nat (String.length text)) +:+ "]")
     \/ (exists declared,
          headers_get "content-length" (headers response) = inl (Some declared)
          /\ out = "[Response body too large: " +:+ declared +:+ " bytes, max: "
                   +:+ num_to_string maxBodySize +:+ " bytes]"))
  /\ (forall hs declared,
        headers response = Some hs ->
        headers_get "content-length" (headers response) = inl (Some declared) ->
        declared <> EmptyString ->
        (forall n, parseInt10 declared = Some n -> maxBodySize < n) ->
        read_body response
        = inl ("[Response body too large: " +:+ declared +:+ " bytes, max: "
               +:+ num_to_string maxBodySize +:+ " bytes]"))
  /\ (verbose (options r) < 2 -> responseBody_of r response = None)
  /\ (2 <= verbose (options r) ->
      (headers response = None ->
         responseBody_of r response
         = Some ("[Unable to read response body: "
                 +:+ "Cannot read properties of undefined (reading 'get')" +:+ "]"))
      /\ (forall hs declared,
            headers response = Some hs ->
            headers_get "content-length" (headers response) = inl declared ->
            (declared = None \/ declared = Some EmptyString
             \/ exists size, parseInt10 (default EmptyString declared) = Some size
                             /\ size <= maxBodySize) ->
            (forall text, body_text response = inl text ->
               (Z.of_nat (String.length text) <= maxBodySize ->
                  responseBody_of r response = Some text)
               /\ (maxBodySize < Z.of_nat (String.length text) ->
                     responseBody_of r response
                     = Some (substring0 (Z.to_nat maxBodySize) text
                             +:+ "... [truncated, total length: "
                             +:+ num_to_string (Z.of_nat (String.length text)) +:+ "]")))
            /\ (forall failure, body_text response = inr failure ->
                  responseBody_of r response
                  = Some ("[Unable to read response body: " +:+ message_of failure +:+ "]")))
      /\ (forall hs declared,
            headers response = Some hs ->
            headers_get "content-length" (headers response) = inl (Some declared) ->
            declared <> EmptyString ->
            (forall n, parseInt10 declared = Some n -> maxBodySize < n) ->
            responseBody_of r response
            = Some ("[Response body too large: " +:+ declared +:+ " bytes, max: "
                    +:+ num_to_string maxBodySize +:+ " bytes]"))).
Proof.
  assert (forall hs declared,
            headers response = Some hs ->
            headers_get "content-length" (headers response) = inl (Some declared) ->
            declared <> EmptyString ->
            (forall n, parseInt10 declared = Some n -> maxBodySize < n) ->
            read_body response
            = inl ("[Response body too large: " +:+ declared +:+ " bytes, max: "
                   +:+ num_to_string maxBodySize +:+ " bytes]")) as Hlarge.
  { intros hs declared Hhs Hdeclared Hne Hbig.
    rewrite (read_body_with_headers response hs _ Hhs Hdeclared).
    apply String.eqb_neq in Hne. cbn. rewrite Hne. cbn.
    destruct (parseInt10 declared) as [n |] eqn:Hn; [| reflexivity].
    specialize (Hbig n eq_refl).
    destruct (n <=? maxBodySize) eqn:Hle; [apply Z.leb_le in Hle; lia | reflexivity]. }
  split; [| split; [exact Hlarge | split]].
  - intros out. unfold read_body.
    destruct (headers_get "content-type" (headers response)) as [ctype | e]; [| discriminate].
    destruct (headers_get "content-length" (headers response)) as [declared | e];
      [| discriminate].
    destruct (negb (str_truthy declared) || _) eqn:Hread.
    + destruct (body_text response) as [text | e]; [| discriminate].
      destruct (Z.of_nat (String.length text) <=? maxBodySize) eqn:Hlen.
      * intros [= <-]. left. exists text. apply Z.leb_le in Hlen. auto.
      * intros [= <-]. right. left. exists text. apply Z.leb_gt in Hlen.
        repeat split; auto. rewrite substring0_length; [| lia].
        apply Z2Nat.id. unfold maxBodySize. lia.
    + intros [= <-]. right. right. destruct declared as [declared |].
      * exists declared. split; reflexivity.
      * discriminate.
  - intros Hquiet. unfold responseBody_of.
    destruct (2 <=? verbose (options r)) eqn:Hv; [apply Z.leb_le in Hv; lia | reflexivity].
  - intros Hloud. unfold responseBody_of.
    assert ((2 <=? verbose (options r)) = true) as -> by now apply Z.leb_le.
    split; [| split].
    + intros Hnone. unfold read_body. rewrite Hnone. reflexivity.
    + intros hs declared Hhs Hdeclared Hallowed.
      rewrite (read_body_with_headers response hs _ Hhs Hdeclared).
      assert ((negb (str_truthy declared)
               || match parseInt10 (default EmptyString declared) with
                  | Some n => n <=? maxBodySize
                  | None => false
                  end) = true) as ->.
      { destruct Hallowed as [-> | [-> | (n & -> & Hn)]]; [reflexivity | reflexivity |].
        apply Z.leb_le in Hn. rewrite Hn. apply orb_true_r. }
      split.
      * intros text ->. split; intros Hlen.
        -- apply Z.leb_le in Hlen. now rewrite Hlen.
        -- apply Z.leb_gt in Hlen. now rewrite Hlen.
      * intros failure ->. reflexivity.
    + intros hs declared Hhs Hdeclared Hne Hbig.
      now rewrite (Hlarge hs declared Hhs Hdeclared Hne Hbig).
Qed.
End Logging.

(** * Properties of the command line *)

Arguments help_text : simpl never.
Arguments stop : simpl never.

Lemma takes_value_cases arg :
  takes_value arg
  = is_flag arg ["--url"; "-u"] || is_flag arg ["--secret"; "-s"]
    || is_flag arg ["--config"; "-c"] || is_flag arg ["--filter"; "-f"]
    || is_flag arg ["--execute"; "-e"].
Proof.
  unfold takes_value, is_flag. cbn. rewrite !orb_false_r, !orb_assoc. reflexivity.
Qed.

(** Induction on a list that may drop two elements at a time. *)
Lemma list_pair_ind {A} (P : list A -> Prop) :
  P [] ->
  (forall x l, P l -> (forall y l', l = y :: l' -> P l') -> P (x :: l)) ->
  forall l, P l.
Proof.
  intros Hnil Hcons l.
  enough (P l /\ forall y l', l = y :: l' -> P l') as [Hl _] by exact Hl.
  induction l as [| x l [IH1 IH2]].
  - split; [exact Hnil | discriminate].
  - split; [now apply Hcons | now intros y l' [= <- <-]].
Qed.

(** The loop only adds to the verbosity count, or sets it to 2, and never
    writes the [verbose] field. *)
Lemma parseArgs_loop_count argv : forall args count,
  0 <= count ->
  0 <= (parseArgs_loop argv args count).2
  /\ cli_verbose (parseArgs_loop argv args count).1 = cli_verbose args.
Proof.
  induction argv as [| arg rest IH IH2] using list_pair_ind; intros args count Hcount.
  - cbn. split; [lia | reflexivity].
  - turn arg rest; try (cbn; split; [lia | reflexivity]);
      recall IH IH2 ltac:(fun Hr => destruct Hr as [? ->]; [lia | split; [assumption | reflexivity]]).
Qed.

(** A flag that is set stays set, and the loop sets flags to [true] only. *)
Lemma parseArgs_loop_flags argv : forall args count,
  (cli_help args = Some true -> cli_help (parseArgs_loop argv args count).1 = Some true)
  /\ (forall b, cli_once (parseArgs_loop argv args count).1 = Some b ->
        b = true \/ cli_once args = Some b)
  /\ (forall b, cli_list (parseArgs_loop argv args count).1 = Some b ->
        b = true \/ cli_list args = Some b)
  /\ (forall b, cli_help (parseArgs_loop argv args count).1 = Some b ->
        b = true \/ cli_help args = Some b).
Proof.
  induction argv as [| arg rest IH IH2] using list_pair_ind; intros args count.
  - cbn. repeat split; auto.
  - turn arg rest; try (cbn; repeat split; auto; fail);
      recall IH IH2 ltac:(fun Hr =>
        destruct Hr as (Hkeep & Ho & Hl & Hh); cbn in Hkeep, Ho, Hl, Hh;
        repeat split; auto;
        intros b Hb;
        first [ destruct (Ho b Hb) as [-> | Hb']
              | destruct (Hl b Hb) as [-> | Hb']
              | destruct (Hh b Hb) as [-> | Hb'] ];
        auto; injection Hb' as <-; auto).
Qed.

(** X14. Whatever the command line, [parseArgs] gives a verbosity that is
    absent, 1 or 2, and the flags [once], [list] and [help] are either
    absent or [true]. *)
Theorem parseArgs_ranges argv :
  (cli_verbose (parseArgs argv) = None
   \/ cli_verbose (parseArgs argv) = Some 1
   \/ cli_verbose (parseArgs argv) = Some 2)
  /\ (cli_once (parseArgs argv) = None \/ cli_once (parseArgs argv) = Some true)
  /\ (cli_list (parseArgs argv) = None \/ cli_list (parseArgs argv) = Some true)
  /\ (cli_help (parseArgs argv) = None \/ cli_help (parseArgs argv) = Some true).
Proof.
  unfold parseArgs.
  destruct (parseArgs_loop_count argv no_args 0 ltac:(lia)) as [Hcount Hverbose].
  destruct (parseArgs_loop_flags argv no_args 0) as (_ & Ho & Hl & Hh).
  destruct (parseArgs_loop argv no_args 0) as [args count]. cbn in *.
  assert (forall field : option bool,
            (forall b, field = Some b -> b = true \/ None = Some b) ->
            field = None \/ field = Some true) as Hflag.
  { intros [b |] Hb; [| now left]. right. destruct (Hb b eq_refl) as [-> | ?];
      [reflexivity | discriminate]. }
  destruct (0 <? count) eqn:Hpos; cbn; (split; [| auto]).
  - apply Z.ltb_lt in Hpos. right.
    destruct (Z.eq_dec count 1) as [-> | Hne]; [now left | right].
    f_equal. lia.
  - left. exact Hverbose.
Qed.

(** Words are read from left to right and independently of what
    follows: when a first part of the command line does not end with an
    option still waiting for its value, parsing the whole line is
    parsing the rest from where the first part left off. *)
Lemma parseArgs_loop_app pre : forall rest args count,
  awaits_value pre = false ->
  parseArgs_loop (pre ++ rest) args count
  = parseArgs_loop rest (parseArgs_loop pre args count).1 (parseArgs_loop pre args count).2.
Proof.
  induction pre as [| arg pre IH IH2] using list_pair_ind; intros rest args count Hawait.
  - reflexivity.
  - cbn [awaits_value] in Hawait. rewrite takes_value_cases in Hawait.
    cbn [app parseArgs_loop]. switch_on arg;
      repeat match goal with
             | E : is_flag _ _ = true |- _ => spelled E
             end;
      repeat match goal with
             | E : is_flag arg _ = false |- _ => rewrite E in Hawait; clear E
             end;
      cbn in Hawait;
      try (destruct pre as [| v pre']; [discriminate Hawait |];
           cbn; now apply (IH2 v pre' eq_refl));
      cbn; now apply IH.
Qed.

(** X15. An option given last on the command line wins, and an option
    given last without its value erases what was set before: after a
    first part that is not waiting for a value, each option that takes a
    value has the value that follows it, has none when nothing follows
    it, and a last word without a leading dash is the URL. *)
Theorem last_option_wins pre :
  awaits_value pre = false ->
  (forall v,
      cli_url (parseArgs (pre ++ ["--url"; v])) = Some v
      /\ cli_secret (parseArgs (pre ++ ["--secret"; v])) = Some v
      /\ cli_config (parseArgs (pre ++ ["--config"; v])) = Some v
      /\ cli_filter (parseArgs (pre ++ ["--filter"; v])) = Some v
      /\ cli_execute (parseArgs (pre ++ ["--execute"; v])) = Some v)
  /\ (cli_url (parseArgs (pre ++ ["--url"])) = None
      /\ cli_secret (parseArgs (pre ++ ["--secret"])) = None
      /\ cli_config (parseArgs (pre ++ ["--config"])) = None
      /\ cli_filter (parseArgs (pre ++ ["--filter"])) = None
      /\ cli_execute (parseArgs (pre ++ ["--execute"])) = None)
  /\ (forall u, starts_with_dash u = false -> cli_url (parseArgs (pre ++ [u])) = Some u).
Proof.
  intros Hawait. unfold parseArgs.
  split; [| split].
  - intros v. rewrite !(parseArgs_loop_app pre) by exact Hawait.
    destruct (parseArgs_loop pre no_args 0) as [args count]. cbn.
    destruct (0 <? count); repeat split; reflexivity.
  - rewrite !(parseArgs_loop_app pre) by exact Hawait.
    destruct (parseArgs_loop pre no_args 0) as [args count]. cbn.
    destruct (0 <? count); repeat split; reflexivity.
  - intros u Hu. rewrite (parseArgs_loop_app pre) by exact Hawait.
    destruct (parseArgs_loop pre no_args 0) as [args count].
    cbn [fst snd parseArgs_loop]. switch_on u;
      try (match goal with E : is_flag _ _ = true |- _ => spelled E end; discriminate Hu).
    + destruct (0 <? count); reflexivity.
    + rewrite Hu in *. discriminate.
Qed.

Section Main.
Context `{Platform}.

(** X16. [--help] or [-h] anywhere on the command line, except as the
    value of another option, wins over everything else: [main] prints
    the help text and exits with code 0 without constructing a runner,
    reading a file or sending a request. *)
Theorem help_wins pre rest w :
  awaits_value pre = false ->
  main (pre ++ "--help" :: rest) w = exits 0 [Out help_text] None w
  /\ main (pre ++ "-h" :: rest) w = exits 0 [Out help_text] None w.
Proof.
  intros Hawait.
  assert (forall flag, is_flag flag ["--help"; "-h"] = true ->
            (flag = "--help" \/ flag = "-h") ->
            cli_help (parseArgs (pre ++ flag :: rest)) = Some true) as Hset.
  { intros flag _ Hflag. unfold parseArgs.
    rewrite (parseArgs_loop_app pre) by exact Hawait.
    destruct (parseArgs_loop pre no_args 0) as [args count]. cbn [fst snd].
    assert (parseArgs_loop (flag :: rest) args count
            = parseArgs_loop rest (put_help args) count) as ->
      by (destruct Hflag as [-> | ->]; reflexivity).
    destruct (parseArgs_loop_flags rest (put_help args) count) as (Hkeep & _).
    destruct (parseArgs_loop rest (put_help args) count) as [args' count'].
    cbn in Hkeep |- *. destruct (0 <? count'); cbn; now apply Hkeep. }
  unfold main. rewrite !Hset by (auto; reflexivity). split; reflexivity.
Qed.



Lemma failed_none_iff results :
  failed results = 0 <-> List.Forall (fun res => success res = true) results.
Proof.
  induction results as [| res results IH].
  - split; [constructor | reflexivity].
  - rewrite failed_cons. split.
    + intros Hsum. assert (0 <= failed results) by (unfold failed; lia).
      destruct (success res) eqn:Hres; [| lia].
      constructor; [exact Hres | apply IH; lia].
    + intros Hall. apply List.Forall_cons_iff in Hall as [-> Hrest].
      apply IH in Hrest. lia.
Qed.

(** What [executeAll] counted when it returned. *)
Lemma executeAll_counts_failures r w results :
  outcome (executeAll r w) = Ok results ->
  failedExecutions (stats (runner_after (executeAll r w)))
  = failedExecutions (stats r) + failed results.
Proof.
  unfold executeAll, bind, attempt, update_runner, say.
  destruct (loadConfig r w) as [cfg | e]; [| discriminate]. cbn.
  destruct (filterJobs _ (crons cfg)) as [jobs | e]; [| discriminate].
  destruct (length jobs =? 0)%nat; [discriminate |]. cbn.
  match goal with |- context [executeAll_loop jobs [] ?r1 ?w1] =>
    destruct (executeAll_loop_accounting jobs [] r1 w1)
      as (results' & Hout & _ & _ & Hf & _)
  end.
  rewrite Hout, Hf. now intros [= <-].
Qed.

(** X18. In once mode ([--once] with a URL, without [--help], [--list] or
    [--execute]) the process exits with 0 exactly when [executeAll]
    returned and every result reports a success; it exits with 1 when a
    dispatch failed or [executeAll] threw. *)
Theorem once_mode_exit_code argv w runner :
  bool_truthy (cli_help (parseArgs argv)) = false ->
  bool_truthy (cli_list (parseArgs argv)) = false ->
  str_truthy (cli_url (parseArgs argv)) = true ->
  str_truthy (cli_execute (parseArgs argv)) = false ->
  bool_truthy (cli_once (parseArgs argv)) = true ->
  new_CronRunner
    {| opt_baseUrl := default EmptyString (cli_url (parseArgs argv));
       opt_cronSecret := cli_secret (parseArgs argv);
       opt_configPath := cli_config (parseArgs argv);
       opt_verbose := cli_verbose (parseArgs argv);
       opt_filter := cli_filter (parseArgs argv); opt_fetch := None |} w = Ok runner ->
  (exit_code (main argv w) = Some 0
   <-> exists results,
         outcome (executeAll runner w) = Ok results
         /\ List.Forall (fun res => success res = true) results)
  /\ (exit_code (main argv w) = Some 0 \/ exit_code (main argv w) = Some 1)
  /\ proc_world (main argv w) = world_after (executeAll runner w).
Proof.
  intros Hhelp Hlist Hurl Hexecute Honce Hnew. unfold main.
  rewrite Hhelp, Hlist, Hurl, Hnew, Hexecute, Honce. cbn [negb].
  assert (failedExecutions (stats runner) = 0) as Hzero.
  { unfold new_CronRunner in Hnew. destruct (validateOptions _); [| discriminate].
    now injection Hnew as <-. }
  pose proof (executeAll_counts_failures runner w) as Hcount.
  destruct (executeAll runner w) as [[[results | e] r'] w'] eqn:Hall; cbn in Hcount |- *.
  - specialize (Hcount results eq_refl). unfold getStats. rewrite Hcount, Hzero.
    assert (0 <= failed results) as Hnonneg by (unfold failed; lia).
    destruct (0 <? 0 + failed results) eqn:Hany.
    + apply Z.ltb_lt in Hany. split; [| auto]. split; [discriminate |].
      intros (results' & [= <-] & Hsuccess). apply failed_none_iff in Hsuccess. lia.
    + apply Z.ltb_ge in Hany. split; [| auto]. split; [| reflexivity].
      intros _. exists results. split; [reflexivity |]. apply failed_none_iff. lia.
  - split; [| auto]. split; [discriminate | intros (results & Hres & _); discriminate].
Qed.

(** X19. In execute mode ([--execute p] with a URL, without [--help] or
    [--list]) [main] runs [executeOne p] and nothing else, also when
    [--once] is given: it exits with 0 exactly when the result reports
    a success, with 1 when the dispatch failed or no job has the path. *)
Theorem execute_mode_exit_code argv w runner p :
  bool_truthy (cli_help (parseArgs argv)) = false ->
  bool_truthy (cli_list (parseArgs argv)) = false ->
  str_truthy (cli_url (parseArgs argv)) = true ->
  cli_execute (parseArgs argv) = Some p ->
  p <> EmptyString ->
  new_CronRunner
    {| opt_baseUrl := default EmptyString (cli_url (parseArgs argv));
       opt_cronSecret := cli_secret (parseArgs argv);
       opt_configPath := cli_config (parseArgs argv);
       opt_verbose := cli_verbose (parseArgs argv);
       opt_filter := cli_filter (parseArgs argv); opt_fetch := None |} w = Ok runner ->
  (exit_code (main argv w) = Some 0
   <-> exists result,
         outcome (executeOne p runner w) = Ok result /\ success result = true)
  /\ (exit_code (main argv w) = Some 0 \/ exit_code (main argv w) = Some 1)
  /\ proc_world (main argv w) = world_after (executeOne p runner w)
  /\ proc_runner (main argv w) = Some (runner_after (executeOne p runner w)).
Proof.
  intros Hhelp Hlist Hurl Hexecute Hp Hnew. unfold main.
  rewrite Hhelp, Hlist, Hurl, Hnew, Hexecute. cbn [negb str_truthy default from_option id].
  apply String.eqb_neq in Hp. rewrite Hp. cbn [negb].
  destruct (executeOne p runner w) as [[[result | e] r'] w']; cbn.
  - destruct (success result) eqn:Hres; cbn.
    + repeat split; auto. intros _. eauto.
    + repeat split; auto; [discriminate |]. intros (result' & [= <-] & Hyes). congruence.
  - repeat split; auto; [discriminate |]. intros (result & Hres & _). discriminate.
Qed.

(** X20. In watch mode (a URL, without [--help], [--list], [--execute] or
    [--once]): when [start] throws, the process exits with 1, so no
    timer of the failed start outlives it; when [start] returns, the
    process stays alive with its signal handlers installed, and SIGINT
    or SIGTERM then stops every timer of the Active Timer Set and exits
    with 0. *)
Theorem watch_mode_lifecycle argv w runner :
  bool_truthy (cli_help (parseArgs argv)) = false ->
  bool_truthy (cli_list (parseArgs argv)) = false ->
  str_truthy (cli_url (parseArgs argv)) = true ->
  str_truthy (cli_execute (parseArgs argv)) = false ->
  bool_truthy (cli_once (parseArgs argv)) = false ->
  new_CronRunner
    {| opt_baseUrl := default EmptyString (cli_url (parseArgs argv));
       opt_cronSecret := cli_secret (parseArgs argv);
       opt_configPath := cli_config (parseArgs argv);
       opt_verbose := cli_verbose (parseArgs argv);
       opt_filter := cli_filter (parseArgs argv); opt_fetch := None |} w = Ok runner ->
  (forall e, outcome (start runner w) = Throw e ->
     exit_code (main argv w) = Some 1
     /\ listening (main argv w) = false
     /\ printed (main argv w) = [report e])
  /\ (outcome (start runner w) = Ok tt ->
      exit_code (main argv w) = None
      /\ listening (main argv w) = true
      /\ proc_runner (main argv w) = Some (runner_after (start runner w))
      /\ exit_code (on_SIGINT (main argv w)) = Some 0
      /\ exit_code (on_SIGTERM (main argv w)) = Some 0
      /\ forall task, In task (handles (runner_after (start runner w))) ->
           is_running (proc_world (on_SIGINT (main argv w))) task = false
           /\ is_running (proc_world (on_SIGTERM (main argv w))) task = false).
Proof.
  intros Hhelp Hlist Hurl Hexecute Honce Hnew. unfold main.
  rewrite Hhelp, Hlist, Hurl, Hnew, Hexecute, Honce. cbn [negb].
  destruct (start runner w) as [[[[] | e] r'] w'] eqn:Hstart; cbn [outcome fst snd].
  - split; [discriminate |]. intros _. unfold on_SIGINT, on_SIGTERM. cbn.
    pose proof (stop_is_running r' w') as Hstop.
    destruct (stop r' w') as [r'' w'']. cbn in Hstop |- *.
    split; [reflexivity |]. split; [reflexivity |]. split; [reflexivity |].
    split; [reflexivity |]. split; [reflexivity |].
    intros task Htask. rewrite !Hstop.
    replace (existsb (Nat.eqb task) (handles r')) with true;
      [split; apply andb_false_r |].
    symmetry. apply existsb_exists. exists task. split; [exact Htask | apply Nat.eqb_refl].
  - split; [| discriminate]. intros e' [= <-]. cbn. auto.
Qed.

(** X21. [main] ends the process with code 0 or 1, or leaves it running;
    it leaves it running only in watch mode, with the signal handlers
    installed.  Without [--help] and [--list], a command line that
    gives no URL ends with code 1 before anything is constructed. *)
Theorem main_exit_codes argv w :
  (exit_code (main argv w) = None
   \/ exit_code (main argv w) = Some 0
   \/ exit_code (main argv w) = Some 1)
  /\ (exit_code (main argv w) = None <-> listening (main argv w) = true)
  /\ (bool_truthy (cli_help (parseArgs argv)) = false ->
      bool_truthy (cli_list (parseArgs argv)) = false ->
      str_truthy (cli_url (parseArgs argv)) = false ->
      exit_code (main argv w) = Some 1
      /\ proc_world (main argv w) = w
      /\ proc_runner (main argv w) = None).
Proof.
  unfold main.
  destruct (bool_truthy (cli_help (parseArgs argv)));
    [cbn; repeat split; auto; discriminate |].
  destruct (bool_truthy (cli_list (parseArgs argv))).
  - destruct (new_CronRunner _ w) as [runner | e];
      [destruct (listJobs runner w) as [[[jobs | e] r'] w'] |];
      cbn; repeat split; auto; discriminate.
  - destruct (str_truthy (cli_url (parseArgs argv)));
      [| cbn; repeat split; auto; discriminate].
    cbn [negb].
    destruct (new_CronRunner _ w) as [runner | e];
      [| cbn; repeat split; auto; discriminate].
    destruct (str_truthy (cli_execute (parseArgs argv))).
    + destruct (executeOne _ runner w) as [[[result | e] r'] w'];
        [destruct (success result) |]; cbn; repeat split; auto; discriminate.
    + destruct (bool_truthy (cli_once (parseArgs argv))).
      * destruct (executeAll runner w) as [[[results | e] r'] w'];
          [destruct (0 <? _) |]; cbn; repeat split; auto; discriminate.
      * destruct (start runner w) as [[[[] | e] r'] w'];
          cbn; repeat split; auto; discriminate.
Qed.
End Main.

(** * Instances of the further properties *)

Section Instances.
Import Reference Scenario CliScenario.

Lemma executeAll_accounting_witness :
  exists results,
    outcome (executeAll mixedEngine (world_with mockConfig)) = Ok results
    /\ failedExecutions (stats (runner_after (executeAll mixedEngine (world_with mockConfig))))
       = failedExecutions (stats mixedEngine) + failed results.
Proof.
  destruct (executeAll_accounting mixedEngine (world_with mockConfig)
              {| crons := [test1; test2; test3] |} [test1; test2; test3])
    as (results & Hout & _ & _ & Hfailed & _).
  - vm_compute. reflexivity.
  - vm_compute. reflexivity.
  - discriminate.
  - exists results. split; assumption.
Defined.

Lemma failed_load_changes_nothing_witness :
  start plainEngine (set_files ∅ (world_with mockConfig))
  = (Throw (ConfigNotFound "/tmp/test-vercel.json"), plainEngine,
     set_files ∅ (world_with mockConfig)).
Proof.
  refine (proj1 (failed_load_changes_nothing plainEngine (set_files ∅ (world_with mockConfig))
                   (ConfigNotFound "/tmp/test-vercel.json") _)).
  vm_compute. reflexivity.
Defined.

Lemma no_matching_jobs_changes_only_config_witness :
  start strangerEngine (world_with mockConfig)
  = (Throw NoMatchingJobs,
     set_config (Some {| crons := [test1; test2; test3] |}) strangerEngine,
     world_with mockConfig).
Proof.
  refine (proj1 (no_matching_jobs_changes_only_config strangerEngine (world_with mockConfig)
                   {| crons := [test1; test2; test3] |} _ _)).
  - vm_compute. reflexivity.
  - vm_compute. reflexivity.
Defined.

Lemma start_never_dispatches_witness :
  scheduler (world_after (start (runner_after watching) (world_after watching))) !! 0%nat
  = Some (timer_for test1).
Proof.
  refine (proj2 (proj2 (proj2 (proj2 (proj2
            (start_never_dispatches (runner_after watching) (world_after watching))))))
            0%nat (timer_for test1) _).
  vm_compute. reflexivity.
Defined.

Lemma start_registers_every_job_witness :
  outcome (start plainEngine (world_with mockConfig)) = Ok tt.
Proof.
  refine (proj1 (start_registers_every_job plainEngine (world_with mockConfig)
                   {| crons := [test1; test2; test3] |} [test1; test2; test3] _ _ _ _)).
  - vm_compute. reflexivity.
  - vm_compute. reflexivity.
  - discriminate.
  - vm_compute. reflexivity.
Defined.

Lemma start_then_stop_stops_every_timer_witness :
  handles (runner_after (start plainEngine (world_with mockConfig)))
  = seq (length (scheduler (world_with mockConfig))) (length [test1; test2; test3]).
Proof.
  refine (proj1 (start_then_stop_stops_every_timer plainEngine (world_with mockConfig)
                   {| crons := [test1; test2; test3] |} [test1; test2; test3] _ _ _ _ _ _)).
  - vm_compute. reflexivity.
  - vm_compute. reflexivity.
  - discriminate.
  - vm_compute. reflexivity.
  - repeat (apply List.NoDup_cons; [cbn; intuition discriminate |]). apply List.NoDup_nil.
  - reflexivity.
Defined.

Lemma shared_path_leaves_a_timer_running_witness :
  exists task,
    (length (scheduler (world_with sharedPath)) <= task
     < length (scheduler (world_with sharedPath)) + length [jobA; jobA2])%nat
    /\ is_running
         (stop (runner_after (start plainEngine (world_with sharedPath)))
               (world_after (start plainEngine (world_with sharedPath)))).2 task = true.
Proof.
  refine (shared_path_leaves_a_timer_running plainEngine (world_with sharedPath)
            {| crons := [jobA; jobA2] |} [jobA; jobA2] _ _ _ _ _).
  - vm_compute. reflexivity.
  - vm_compute. reflexivity.
  - vm_compute. reflexivity.
  - intros Hdistinct. apply List.NoDup_cons_iff in Hdistinct as [Hfresh _].
    apply Hfresh. now left.
  - reflexivity.
Defined.

Lemma task_fires_dispatches_once_witness :
  tasks (task_fires 0 (runner_after watching) (world_after watching)).1
  = tasks (runner_after watching).
Proof.
  refine (proj1 (proj2 (proj2 (proj1
            (task_fires_dispatches_once 0 (runner_after watching) (world_after watching))
            (timer_for test1) _ _)))).
  - vm_compute. reflexivity.
  - reflexivity.
Defined.

Lemma stopped_timers_stay_silent_witness :
  task_fires 1 (stop (runner_after watching) (world_after watching)).1
             (stop (runner_after watching) (world_after watching)).2
  = ((stop (runner_after watching) (world_after watching)).1,
     (stop (runner_after watching) (world_after watching)).2).
Proof.
  refine (stopped_timers_stay_silent (runner_after watching) (world_after watching) 1%nat _).
  vm_compute. auto.
Defined.

Lemma listJobs_repeats_witness :
  world_after (listJobs notificationsEngine (world_with mockConfig)) = world_with mockConfig.
Proof.
  refine (proj1 (listJobs_repeats notificationsEngine (world_with mockConfig) [test3] _)).
  vm_compute. reflexivity.
Defined.

Lemma constructor_checks_base_url_witness :
  tasks plainEngine = [].
Proof.
  refine (proj1 (proj2 (proj2 (constructor_checks_base_url
                                 (options_for None None (answering []))
                                 (world_with mockConfig))) plainEngine _)).
  vm_compute. reflexivity.
Defined.

Lemma quiet_at_verbosity_zero_witness :
  console (world_after (start plainEngine (world_with mockConfig)))
  = console (world_with mockConfig).
Proof.
  refine (proj1 (quiet_at_verbosity_zero plainEngine (world_with mockConfig) _)).
  reflexivity.
Defined.

Lemma logged_body_is_capped_witness :
  responseBody_of EdgeScenario.talkativeEngine EdgeScenario.smallResponse = Some "ok"
  /\ responseBody_of EdgeScenario.talkativeEngine largeResponse
     = Some ("[Response body too large: " +:+ "20000" +:+ " bytes, max: "
             +:+ num_to_string maxBodySize +:+ " bytes]").
Proof.
  destruct (proj2 (proj2 (proj2 (logged_body_is_capped EdgeScenario.talkativeEngine EdgeScenario.smallResponse))))
    as (_ & Hread & _); [vm_compute; discriminate |].
  destruct (proj2 (proj2 (proj2 (logged_body_is_capped EdgeScenario.talkativeEngine largeResponse))))
    as (_ & _ & Hrefused); [vm_compute; discriminate |].
  split.
  - destruct (Hread [("content-type", "text/plain"); ("content-length", "2")] (Some "2"))
      as (Htext & _).
    + reflexivity.
    + vm_compute. reflexivity.
    + right. right. exists 2. split; [vm_compute; reflexivity | vm_compute; discriminate].
    + apply (Htext "ok"); [reflexivity | vm_compute; discriminate].
  - apply (Hrefused [("content-type", "text/plain"); ("content-length", "20000")] "20000").
    + reflexivity.
    + vm_compute. reflexivity.
    + discriminate.
    + intros n Hn. vm_compute in Hn. injection Hn as <-. reflexivity.
Defined.

Lemma last_option_wins_witness :
  cli_url (parseArgs (["http://localhost:3000"; "--once"] ++ ["--url"])) = None.
Proof.
  refine (proj1 (proj1 (proj2 (last_option_wins ["http://localhost:3000"; "--once"] _)))).
  reflexivity.
Defined.

Lemma help_wins_witness :
  main (onceLine ++ "--help" :: ["--list"]) (world_with mockConfig)
  = exits 0 [Out help_text] None (world_with mockConfig).
Proof.
  refine (proj1 (help_wins onceLine ["--list"] (world_with mockConfig) _)).
  reflexivity.
Defined.


Lemma once_mode_exit_code_witness :
  exit_code (main onceLine (serving mockConfig)) = Some 0
  <-> exists results,
        outcome (executeAll cliEngine (serving mockConfig)) = Ok results
        /\ List.Forall (fun res => success res = true) results.
Proof.
  refine (proj1 (once_mode_exit_code onceLine (serving mockConfig) cliEngine _ _ _ _ _ _)).
  - reflexivity.
  - reflexivity.
  - reflexivity.
  - reflexivity.
  - reflexivity.
  - vm_compute. reflexivity.
Defined.

Lemma execute_mode_exit_code_witness :
  proc_world (main executeLine (serving mockConfig))
  = world_after (executeOne "/api/crons/test2" cliEngine (serving mockConfig)).
Proof.
  refine (proj1 (proj2 (proj2 (execute_mode_exit_code executeLine (serving mockConfig)
                                 cliEngine "/api/crons/test2" _ _ _ _ _ _)))).
  - reflexivity.
  - reflexivity.
  - reflexivity.
  - reflexivity.
  - discriminate.
  - vm_compute. reflexivity.
Defined.

Lemma watch_mode_lifecycle_witness :
  exit_code (main watchLine (serving mockConfig)) = None
  /\ listening (main watchLine (serving mockConfig)) = true
  /\ proc_runner (main watchLine (serving mockConfig))
     = Some (runner_after (start cliEngine (serving mockConfig)))
  /\ exit_code (on_SIGINT (main watchLine (serving mockConfig))) = Some 0
  /\ exit_code (on_SIGTERM (main watchLine (serving mockConfig))) = Some 0
  /\ forall task, In task (handles (runner_after (start cliEngine (serving mockConfig)))) ->
       is_running (proc_world (on_SIGINT (main watchLine (serving mockConfig)))) task = false
       /\ is_running (proc_world (on_SIGTERM (main watchLine (serving mockConfig)))) task
          = false.
Proof.
  refine (proj2 (watch_mode_lifecycle watchLine (serving mockConfig) cliEngine
                   _ _ _ _ _ _) _).
  - reflexivity.
  - reflexivity.
  - reflexivity.
  - reflexivity.
  - reflexivity.
  - vm_compute. reflexivity.
  - vm_compute. reflexivity.
Defined.

Lemma main_exit_codes_witness :
  exit_code (main ["--once"] (world_with mockConfig)) = Some 1
  /\ proc_world (main ["--once"] (world_with mockConfig)) = world_with mockConfig
  /\ proc_runner (main ["--once"] (world_with mockConfig)) = None.
Proof.
  refine (proj2 (proj2 (main_exit_codes ["--once"] (world_with mockConfig))) _ _ _).
  - reflexivity.
  - reflexivity.
  - reflexivity.
Defined.

(** The exit codes of the three modes against a server that answers. *)
Example once_mode_against_a_server :
  exit_code (main onceLine (serving mockConfig)) = Some 0
  /\ exit_code (main onceLine (world_with mockConfig)) = Some 1
  /\ exit_code (main executeLine (serving mockConfig)) = Some 0
  /\ length (requests (proc_world (main executeLine (serving mockConfig)))) = 1%nat
  /\ exit_code (main ["http://localhost:3000"; "-c"; mockConfigPath; "-e"; "/nowhere"]
                  (serving mockConfig)) = Some 1.
Proof. vm_compute. repeat split; reflexivity. Qed.
End Instances.

(** * Reloading the configuration *)

Section Reloading.
Context `{Platform}.

Lemma loadConfig_reads_file r w text jobs :
  backing_file r w = Some text -> file_holds text jobs ->
  loadConfig r w = Ok {| crons := jobs |}.
Proof.
  intros Hfile (parsed & items & Hparse & Hcrons & Hjobs).
  now apply (loadConfig_returns r w text parsed items jobs).
Qed.

Lemma backing_file_edit text r w : backing_file r (edit_file text r w) = Some text.
Proof. unfold backing_file, edit_file. cbn. apply lookup_insert_eq. Qed.

Lemma backing_file_remove r w : backing_file r (remove_file r w) = None.
Proof. unfold backing_file, remove_file. cbn. apply lookup_delete_eq. Qed.

Lemma config_after_load r w cfg :
  loadConfig r w = Ok cfg ->
  config (runner_after (start r w)) = Some cfg
  /\ config (runner_after (executeAll r w)) = Some cfg
  /\ forall p, config (runner_after (executeOne p r w)) = Some cfg.
Proof.
  intros Hload. split; [| split].
  - unfold start, bind, attempt, update_runner. rewrite Hload. cbn.
    destruct (filterJobs _ _) as [jobs | e]; [| reflexivity].
    destruct (length jobs =? 0)%nat; [reflexivity |]. cbn.
    match goal with |- context [start_loop jobs ?r1 ?w1] =>
      pose proof (start_loop_runner_frame jobs r1 w1) as (_ & _ & Hcfg);
      destruct (start_loop jobs r1 w1) as [[[[] | e] r2] w2]
    end; cbn in Hcfg |- *; exact Hcfg.
  - unfold executeAll, bind, attempt, update_runner. rewrite Hload. cbn.
    destruct (filterJobs _ _) as [jobs | e]; [| reflexivity].
    destruct (length jobs =? 0)%nat; [reflexivity |]. cbn.
    now rewrite executeAll_loop_config.
  - intros p. rewrite (executeOne_after_load p r w cfg Hload).
    destruct (List.find _ _) as [job |]; [| reflexivity].
    pose proof (executeCron_runner_frame job (set_config (Some cfg) r) w) as (_ & _ & Hcfg).
    destruct (executeCron job (set_config (Some cfg) r) w) as [[res r1] w1]. exact Hcfg.
Qed.

(** What the three operations do with the job list they loaded. *)
Lemma loaded_jobs_are_acted_on r w jobs :
  loadConfig r w = Ok {| crons := jobs |} -> acts_on jobs r w.
Proof.
  intros Hload. unfold acts_on.
  destruct (config_after_load r w _ Hload) as (Hc1 & Hc2 & Hc3).
  split; [exact Hc1 |]. split; [exact Hc2 |]. split; [exact Hc3 |].
  split; [| split; [| split]].
  - intros kept Hfilter Hkept. split; [| split].
    + rewrite (start_after_load r w _ kept Hload Hfilter Hkept). unfold bind.
      match goal with |- context [start_loop kept ?r1 ?w1] =>
        pose proof (start_loop_runner_frame kept r1 w1) as (Hstats & _);
        destruct (start_loop kept r1 w1) as [[[[] | e] r2] w2]
      end; cbn in Hstats |- *; now rewrite Hstats.
    + rewrite (start_after_load r w _ kept Hload Hfilter Hkept). unfold bind.
      match goal with |- context [start_loop kept ?r1 ?w1] =>
        pose proof (start_loop_scheduler kept r1 w1) as Hsch;
        destruct (start_loop kept r1 w1) as [[[[] | e] r2] w2]
      end; cbn in Hsch |- *; autorewrite with frame in *; cbn in *; exact Hsch.
    + rewrite (executeAll_after_load r w _ kept Hload Hfilter Hkept).
      match goal with |- context [executeAll_loop kept [] ?r1 ?w1] =>
        destruct (executeAll_loop_accounting kept [] r1 w1)
          as (results & _ & _ & _ & _ & _ & Hreq & _)
      end.
      rewrite Hreq. autorewrite with frame. f_equal.
  - intros Hnone. unfold start, executeAll, bind, attempt, update_runner.
    rewrite Hload. cbn.
    rewrite (filterJobs_options r (set_config (Some {| crons := jobs |}) r)) by reflexivity.
    rewrite Hnone. split; reflexivity.
  - intros p Hall. rewrite (executeOne_after_load p r w _ Hload). cbn [crons].
    apply find_none_iff in Hall. rewrite Hall. split; reflexivity.
  - intros p job Hfind. rewrite (executeOne_after_load p r w _ Hload). cbn [crons].
    rewrite Hfind.
    pose proof (executeCron_world_frame job (set_config (Some {| crons := jobs |}) r) w)
      as (Hreq & _).
    destruct (executeCron job (set_config (Some {| crons := jobs |}) r) w) as [[res r1] w1].
    cbn in Hreq |- *. exact Hreq.
Qed.

(** C7. [start], [executeAll] and [executeOne] read the configuration
    file at the beginning of every call.  How they end does not depend
    on the configuration kept from an earlier call; they fail with the
    error of the load when it fails, with ConfigNotFound when the file
    is not there; and when the file holds a job list they act on that
    list and keep it.  So after any earlier call, a text written to
    the file, or the removal of the file, decides what the next call
    does.  [listJobs] alone answers from the kept configuration when
    there is one, whatever the file has become, and reads the file
    otherwise. *)
Theorem reload_policy :
  ignores_stored_config start
  /\ ignores_stored_config executeAll
  /\ (forall p, ignores_stored_config (executeOne p))
  /\ (forall r w cfg, loadConfig r w = Ok cfg ->
        config (runner_after (start r w)) = Some cfg
        /\ config (runner_after (executeAll r w)) = Some cfg
        /\ forall p, config (runner_after (executeOne p r w)) = Some cfg)
  /\ (forall r w e, loadConfig r w = Throw e ->
        outcome (start r w) = Throw e
        /\ outcome (executeAll r w) = Throw e
        /\ forall p, outcome (executeOne p r w) = Throw e)
  /\ (forall r w present, config r = Some present ->
        listJobs r w = (filterJobs r (crons present), r, w))
  /\ (forall r w, config r = None ->
        outcome (listJobs r w) =
          match loadConfig r w with
          | Ok cfg => filterJobs r (crons cfg)
          | Throw e => Throw e
          end)
  /\ (forall r w, backing_file r w = None ->
        start r w
        = (Throw (ConfigNotFound (path_resolve (configPath (options r)))), r, w)
        /\ executeAll r w
           = (Throw (ConfigNotFound (path_resolve (configPath (options r)))), r, w)
        /\ (forall p, executeOne p r w
                      = (Throw (ConfigNotFound (path_resolve (configPath (options r)))), r, w))
        /\ (config r = None ->
              listJobs r w
              = (Throw (ConfigNotFound (path_resolve (configPath (options r)))), r, w)))
  /\ (forall r w text jobs, backing_file r w = Some text -> file_holds text jobs ->
        acts_on jobs r w
        /\ (config r = None ->
              outcome (listJobs r w) = filterJobs r jobs
              /\ config (runner_after (listJobs r w)) = Some {| crons := jobs |}))
  /\ (forall (A : Type) (first : M A) r w text jobs,
        file_holds text jobs ->
        acts_on jobs (runner_after (first r w))
          (edit_file text (runner_after (first r w)) (world_after (first r w)))
        /\ outcome (start (runner_after (first r w))
                      (remove_file (runner_after (first r w)) (world_after (first r w))))
           = Throw (ConfigNotFound
                      (path_resolve (configPath (options (runner_after (first r w))))))
        /\ (forall present, config (runner_after (first r w)) = Some present ->
              outcome (listJobs (runner_after (first r w))
                         (edit_file text (runner_after (first r w))
                            (world_after (first r w))))
              = filterJobs (runner_after (first r w)) (crons present)
              /\ outcome (listJobs (runner_after (first r w))
                            (remove_file (runner_after (first r w))
                               (world_after (first r w))))
                 = filterJobs (runner_after (first r w)) (crons present))).
Proof.
  split; [exact start_ignores_stored_config |].
  split; [exact executeAll_ignores_stored_config |].
  split; [exact executeOne_ignores_stored_config |].
  split; [exact config_after_load |].
  assert (forall r w e, loadConfig r w = Throw e ->
            outcome (start r w) = Throw e
            /\ outcome (executeAll r w) = Throw e
            /\ forall p, outcome (executeOne p r w) = Throw e) as Hfail.
  { intros r w e Hload. unfold start, executeAll, executeOne, bind, attempt.
    rewrite Hload. repeat split; reflexivity. }
  assert (forall r w, config r = None ->
            outcome (listJobs r w) =
              match loadConfig r w with
              | Ok cfg => filterJobs r (crons cfg)
              | Throw e => Throw e
              end) as Hlist.
  { intros r w Hcfg. unfold listJobs, bind, attempt, update_runner. rewrite Hcfg.
    destruct (loadConfig r w) as [cfg | e]; reflexivity. }
  assert (forall r w present, config r = Some present ->
            listJobs r w = (filterJobs r (crons present), r, w)) as Hkept.
  { intros r w present Hcfg. unfold listJobs. now rewrite Hcfg. }
  split; [exact Hfail |]. split; [exact Hkept |]. split; [exact Hlist |].
  split; [| split].
  - intros r w Hnone. pose proof (loadConfig_missing r w Hnone) as Hload.
    unfold start, executeAll, executeOne, listJobs, bind, attempt. rewrite Hload.
    split; [reflexivity |]. split; [reflexivity |]. split; [reflexivity |].
    now intros ->.
  - intros r w text jobs Hfile Hholds.
    pose proof (loadConfig_reads_file r w text jobs Hfile Hholds) as Hload.
    split; [now apply loaded_jobs_are_acted_on |].
    intros Hcfg. split; [now rewrite (Hlist r w Hcfg), Hload |].
    unfold listJobs, bind, attempt, update_runner. rewrite Hcfg, Hload. reflexivity.
  - intros A first r w text jobs Hholds.
    set (r1 := runner_after (first r w)). set (w1 := world_after (first r w)).
    split; [| split].
    + apply loaded_jobs_are_acted_on.
      apply (loadConfig_reads_file r1 (edit_file text r1 w1) text jobs);
        [apply backing_file_edit | exact Hholds].
    + apply Hfail. apply loadConfig_missing. apply backing_file_remove.
    + intros present Hcfg. now rewrite !(Hkept r1 _ present Hcfg).
Qed.
End Reloading.

Section ReloadingInstances.
Import Reference Scenario EdgeScenario.

Lemma reload_policy_witness :
  requests (world_after
              (executeAll (runner_after (executeAll mixedEngine (world_with mockConfig)))
                 (edit_file secondInvalid
                    (runner_after (executeAll mixedEngine (world_with mockConfig)))
                    (world_after (executeAll mixedEngine (world_with mockConfig))))))
  = (requests (world_after (executeAll mixedEngine (world_with mockConfig)))
     ++ map (fun job => request_for job mixedEngine) [jobA; jobB])%list.
Proof.
  assert (file_holds secondInvalid [jobA; jobB]) as Hholds.
  { exists (JObj [("crons", JArr secondInvalidItems)]), secondInvalidItems.
    vm_compute. repeat split; reflexivity. }
  destruct (proj2 (proj2 (proj2 (proj2 (proj2 (proj2 (proj2 (proj2 (proj2 reload_policy))))))))
              (list CronExecutionResult) executeAll mixedEngine (world_with mockConfig)
              secondInvalid [jobA; jobB] Hholds)
    as ((_ & _ & _ & Hkept & _) & _).
  destruct (Hkept [jobA; jobB]) as (_ & _ & Hrequests).
  - reflexivity.
  - discriminate.
  - exact Hrequests.
Defined.
End ReloadingInstances.
